(** * dwp: Diceware passphrase generator

    A shallow embedding of the two variants of the generator:

    - [CryptoRand] follows [dwp.go], which reads signed 32-bit words from
      the platform generator ([crypto/rand]);
    - [Tpm] follows the TPM variant, which asks the trusted-platform
      module for one random byte at a time.

    Machine integers are [Z] with their wrap-around written out, strings
    are byte strings, the dictionary [map[int]string] is a [gmap Z string],
    and the entropy source is a script of the replies it will give. *)

From Stdlib Require Import ZArith String Ascii List Lia Bool DecimalString.
From stdpp Require Import base option list gmap strings.

Local Open Scope string_scope.
Local Open Scope list_scope.
Local Open Scope Z_scope.

(** ** Machine integers *)

(** Conversion to a signed integer of [w] bits. *)
Definition wrap_signed (w : Z) (z : Z) : Z :=
  (z + 2 ^ (w - 1)) mod 2 ^ w - 2 ^ (w - 1).

Definition int32 (z : Z) : Z := wrap_signed 32 z.

(** Go's [int]: 64 bits on the platforms the program is built for. *)
Definition int (z : Z) : Z := wrap_signed 64 z.

Definition uint8 (z : Z) : Z := z mod 256.

Definition is_byte (b : Z) : Prop := 0 <= b < 256.

(** ** Results of Go calls *)

(** A Go [error] value: [None] is [nil], [Some msg] carries [err.Error()]. *)
Definition error : Type := option string.

(** What a function that talks to the entropy source can do: return, panic
    at run time, or still be waiting for the source when the script of
    replies is used up. *)
Inductive outcome (A : Type) : Type :=
| Returns (a : A)
| Panics (msg : string)
| Blocked.
Arguments Returns {A} a.
Arguments Panics {A} msg.
Arguments Blocked {A}.

(** ** Counting preimages *)

(** Number of [k] in [[0, n)] that satisfy [p]. *)
Fixpoint count_upto (p : Z -> bool) (n : nat) : Z :=
  match n with
  | O => 0
  | S k => (if p (Z.of_nat k) then 1 else 0) + count_upto p k
  end.

Definition count_below (p : Z -> bool) (n : Z) : Z :=
  count_upto p (Z.to_nat n).

(** ** The Diceware number generator (shared by both variants) *)

Section Generator.
Context {Src : Type}.

(** The sampler, [secureRandInt], of the variant at hand: it takes [max]
    and the state of the entropy source. *)
Variable sampler : Z -> Src -> outcome ((Z * error) * Src).

Fixpoint generate_loop (n : nat) (result : Z) (s : Src)
  : outcome ((Z * error) * Src) :=
  match n with
  | O => Returns ((result, None), s)
  | S n' =>
      match sampler 6 s with
      | Returns ((roll, Some e), s') =>
          Returns ((0, Some ("failed to generate random number: " +:+ e)), s')
      | Returns ((roll, None), s') =>
          let roll := int32 (roll + 1) in
          generate_loop n' (int (result * 10 + roll)) s'
      | Panics m => Panics m
      | Blocked => Blocked
      end
  end.

Definition generateDicewareNumber (numDice : Z) (s : Src)
  : outcome ((Z * error) * Src) :=
  generate_loop (Z.to_nat numDice) 0 s.

(** [draws s rs s']: starting from [s], successive calls of the sampler
    with [max = 6] succeed with the values [rs] and leave the source in
    [s']. *)
Inductive draws : Src -> list Z -> Src -> Prop :=
| draws_nil s : draws s [] s
| draws_cons s r s1 rs s2 :
    sampler 6 s = Returns ((r, None), s1) ->
    draws s1 rs s2 ->
    draws s (r :: rs) s2.
End Generator.

(** The accumulation [result = result*10 + (roll+1)] over a list of rolls. *)
Definition compose_rolls (rs : list Z) : Z :=
  fold_left (fun result roll => result * 10 + (roll + 1)) rs 0.

(** The decimal digit of [n] at position [i], counted from the right. *)
Definition digit_at (n : Z) (i : Z) : Z := (n / 10 ^ i) mod 10.

(** ** Text *)

Definition tab : ascii := "009"%char.
Definition newline : ascii := "010"%char.
Definition carriage_return : ascii := "013"%char.

Definition nl : string := String newline "".

Definition byte_of (c : ascii) : Z := Z.of_N (N_of_ascii c).

Definition len (s : string) : Z := Z.of_nat (String.length s).

(** [strings.Join]. *)
Fixpoint join (sep : string) (ws : list string) : string :=
  match ws with
  | [] => ""
  | [w] => w
  | w :: ws' => w +:+ sep +:+ join sep ws'
  end.

(** [strings.Split(line, "\t")]: never empty; the fields are the texts
    between the tabs. *)
Fixpoint split_tab (s : string) : list string :=
  match s with
  | "" => [""]
  | String c s' =>
      if Ascii.eqb c tab then "" :: split_tab s'
      else match split_tab s' with
           | p :: ps => String c p :: ps
           | [] => [String c ""]
           end
  end.

(** *** Formatting ([fmt.Printf]) *)

Definition zeros (n : Z) : string :=
  string_of_list_ascii (repeat "0"%char (Z.to_nat n)).

(** [%d] *)
Definition fmt_d (z : Z) : string :=
  DecimalString.NilZero.string_of_int (Z.to_int z).

(** [%05d]: padded with zeros to five characters, after the sign. *)
Definition fmt_05d (z : Z) : string :=
  if z <? 0 then
    let d := fmt_d (- z) in "-" +:+ zeros (4 - len d) +:+ d
  else
    let d := fmt_d z in zeros (5 - len d) +:+ d.

(** *** Scanning ([fmt.Sscanf] with the format [%d])

    The scanner of Go's [fmt] package reads runes: it skips leading white
    space, takes an optional sign and then the longest run of decimal
    digits, and hands this token to [strconv.ParseInt] in base 10 and 64
    bits. What follows the token is left unread and is not an error. *)

Definition RuneError : Z := 0xFFFD.

Definition between (lo hi b : Z) : bool := (lo <=? b) && (b <=? hi).

(** [utf8.DecodeRune]: the first rune of [s] and the text after it; an
    invalid or truncated encoding is [RuneError] of width one. *)
Definition decodeRune (s : string) : option (Z * string) :=
  match s with
  | "" => None
  | String c0 r0 =>
      let b0 := byte_of c0 in
      let invalid := Some (RuneError, r0) in
      if b0 <? 0x80 then Some (b0, r0)
      else if between 0xC2 0xDF b0 then
        match r0 with
        | String c1 r1 =>
            let b1 := byte_of c1 in
            if between 0x80 0xBF b1
            then Some (Z.lor (Z.shiftl (Z.land b0 0x1F) 6) (Z.land b1 0x3F), r1)
            else invalid
        | _ => invalid
        end
      else if between 0xE0 0xEF b0 then
        let lo := if b0 =? 0xE0 then 0xA0 else 0x80 in
        let hi := if b0 =? 0xED then 0x9F else 0xBF in
        match r0 with
        | String c1 (String c2 r2) =>
            let b1 := byte_of c1 in
            let b2 := byte_of c2 in
            if between lo hi b1 && between 0x80 0xBF b2
            then Some (Z.lor (Z.lor (Z.shiftl (Z.land b0 0x0F) 12)
                                    (Z.shiftl (Z.land b1 0x3F) 6))
                             (Z.land b2 0x3F), r2)
            else invalid
        | _ => invalid
        end
      else if between 0xF0 0xF4 b0 then
        let lo := if b0 =? 0xF0 then 0x90 else 0x80 in
        let hi := if b0 =? 0xF4 then 0x8F else 0xBF in
        match r0 with
        | String c1 (String c2 (String c3 r3)) =>
            let b1 := byte_of c1 in
            let b2 := byte_of c2 in
            let b3 := byte_of c3 in
            if between lo hi b1 && between 0x80 0xBF b2 && between 0x80 0xBF b3
            then Some (Z.lor (Z.lor (Z.lor (Z.shiftl (Z.land b0 0x07) 18)
                                           (Z.shiftl (Z.land b1 0x3F) 12))
                                    (Z.shiftl (Z.land b2 0x3F) 6))
                             (Z.land b3 0x3F), r3)
            else invalid
        | _ => invalid
        end
      else invalid
  end.

(** The white space of [fmt]'s scanner. *)
Definition isSpace (r : Z) : bool :=
  between 0x0009 0x000d r || (r =? 0x0020) || (r =? 0x0085) || (r =? 0x00a0)
  || (r =? 0x1680) || between 0x2000 0x200a r || between 0x2028 0x2029 r
  || (r =? 0x202f) || (r =? 0x205f) || (r =? 0x3000).

(** [SkipSpace] of a scan in which a newline is not white space: the text
    from the first rune that is not white space, or [None] for the error
    "unexpected newline". *)
Fixpoint skipSpace_fuel (fuel : nat) (s : string) : option string :=
  match fuel with
  | O => Some s
  | S fuel' =>
      match decodeRune s with
      | None => Some s
      | Some (r, rest) =>
          if r =? byte_of newline then None
          else if isSpace r then skipSpace_fuel fuel' rest
          else Some s
      end
  end.

Definition skipSpace (s : string) : option string :=
  skipSpace_fuel (String.length s) s.

Definition is_sign (c : ascii) : bool :=
  Ascii.eqb c "+"%char || Ascii.eqb c "-"%char.

Definition is_decimal (c : ascii) : bool := between 48 57 (byte_of c).

(** The characters [scanNumber] accepts for the verb [d]: the decimal
    digits (the underscore is a digit separator for the verb [v] only). *)
Definition is_number_char (c : ascii) : bool := is_decimal c.

(** The longest prefix of accepted characters. *)
Fixpoint take_number (s : string) : string :=
  match s with
  | String c s' => if is_number_char c then String c (take_number s') else ""
  | "" => ""
  end.

(** The value of a text of decimal digits, as [strconv.ParseUint] reads it
    in base 10; [None] on any other character. *)
Fixpoint parseDigits (acc : Z) (s : string) : option Z :=
  match s with
  | "" => Some acc
  | String c s' =>
      if is_decimal c then parseDigits (acc * 10 + (byte_of c - 48)) s'
      else None
  end.

(** [strconv.ParseInt(tok, 10, 64)] on a token with at least one character
    after the sign; [None] stands for a syntax or range error. *)
Definition parseInt (neg : bool) (digits : string) : option Z :=
  match parseDigits 0 digits with
  | None => None
  | Some un =>
      if neg then (if un <=? 2 ^ 63 then Some (- un) else None)
      else (if un <? 2 ^ 63 then Some un else None)
  end.

(** [fmt.Sscanf(field, "%d", &number)]: [Some number] when [err == nil]. *)
Definition sscanf_d (field : string) : option Z :=
  match skipSpace field with
  | None => None
  | Some s =>
      match s with
      | "" => None
      | String c s' =>
          let neg := Ascii.eqb c "-"%char in
          let body := if is_sign c then s' else s in
          match take_number body with
          | "" => None
          | tok => parseInt neg tok
          end
      end
  end.

(** ** The dictionary *)

(** What [os.Open] gives for a file name: an error, or a file whose bytes
    are [content], after which reading ends with [read_err] ([None] for a
    plain end of file). *)
Record file : Type := { content : string; read_err : error }.

Definition filesystem : Type := string -> string + file.

(** The pieces [bufio.ScanLines] cuts the content into, before the
    carriage return is dropped: the texts that end at a newline, and the
    text after the last newline when it is not empty. *)
Fixpoint raw_lines (s : string) : list string :=
  match s with
  | "" => []
  | String c s' =>
      if Ascii.eqb c newline then "" :: raw_lines s'
      else match raw_lines s' with
           | [] => [String c ""]
           | l :: ls => String c l :: ls
           end
  end.

Fixpoint dropCR (s : string) : string :=
  match s with
  | "" => ""
  | String c "" => if Ascii.eqb c carriage_return then "" else s
  | String c s' => String c (dropCR s')
  end.

(** [bufio.MaxScanTokenSize]: a line that does not fit the scanner's
    buffer ends the scan with [bufio.ErrTooLong]. *)
Definition maxScanTokenSize : Z := 64 * 1024.

Definition ErrTooLong : string := "bufio.Scanner: token too long".

(** The body of the scanning loop for one line. *)
Definition add_line (dict : gmap Z string) (line : string) : gmap Z string :=
  match split_tab line with
  | p0 :: p1 :: _ =>
      match sscanf_d p0 with
      | Some number => <[number := p1]> dict
      | None => dict
      end
  | _ => dict
  end.

(** The loop [for scanner.Scan()], with the value of [scanner.Err()] at
    its end. *)
Fixpoint scan_loop (dict : gmap Z string) (raws : list string)
    (read_err : error) : gmap Z string * error :=
  match raws with
  | [] => (dict, read_err)
  | raw :: rest =>
      if maxScanTokenSize <=? len raw then (dict, Some ErrTooLong)
      else scan_loop (add_line dict (dropCR raw)) rest read_err
  end.

(** [loadDictionary]: the map is [None] where the code returns [nil]. *)
Definition loadDictionary (fs : filesystem) (filename : string)
  : option (gmap Z string) * error :=
  match fs filename with
  | inl e => (None, Some e)
  | inr f =>
      match scan_loop ∅ (raw_lines (content f)) (read_err f) with
      | (_, Some e) => (None, Some e)
      | (dict, None) => (Some dict, None)
      end
  end.

(** The lines the scanning loop is run on when no line is too long. *)
Definition lines_of (content : string) : list string :=
  map dropCR (raw_lines content).

(** The value of [scanner.Err()] after the loop; it depends on the lengths
    of the lines and on the reading of the file, not on what the lines
    say. *)
Fixpoint scanner_err (raws : list string) (read_err : error) : error :=
  match raws with
  | [] => read_err
  | raw :: rest =>
      if maxScanTokenSize <=? len raw then Some ErrTooLong
      else scanner_err rest read_err
  end.

(** A line the loop skips: fewer than two tab-separated fields, or a first
    field on which the integer scan fails. *)
Definition malformed (line : string) : Prop :=
  (length (split_tab line) < 2)%nat \/
  sscanf_d (hd "" (split_tab line)) = None.

(** The entry a well-formed line stands for. *)
Definition entry_of (line : string) : option (Z * string) :=
  match split_tab line with
  | p0 :: p1 :: _ =>
      match sscanf_d p0 with
      | Some number => Some (number, p1)
      | None => None
      end
  | _ => None
  end.

Definition insert_entry (dict : gmap Z string) (kw : Z * string)
  : gmap Z string :=
  <[kw.1 := kw.2]> dict.

(** A text at which the number token of the scan ends: the empty text, or
    one whose first character is not a decimal digit. *)
Definition number_stop (s : string) : Prop :=
  match s with
  | "" => True
  | String c _ => is_number_char c = false
  end.

Fixpoint has_tab (s : string) : bool :=
  match s with
  | "" => false
  | String c s' => Ascii.eqb c tab || has_tab s'
  end.

(** ** The program *)

(** How a run of the program ends. *)
Inductive status : Type :=
| Exit (code : Z)
| Crash (msg : string)
| Hang.

Record run : Type :=
  { stdout : list string; stderr : list string; exit_status : status }.

(** The command line after [flag.Parse]. *)
Record flags : Type :=
  { rolls : Z; dictFile : string; showPassphrase : bool; separator : string }.

(** The surroundings of the process: the name it was started under, the
    text [flag.PrintDefaults] writes, and the files. *)
Record env : Type :=
  { prog : string; flag_defaults : string; files : filesystem }.

Definition passphrase_line (sep : string) (words : list string) : string :=
  nl +:+ "Complete passphrase: " +:+ join sep words +:+ nl.

Definition is_passphrase_line (line : string) : Prop :=
  exists sep words, line = passphrase_line sep words.

(** What the loop prints for one number, and the word it appends. *)
Definition number_output (dict : option (gmap Z string)) (i : Z) (n : Z)
  : list string :=
  ("Diceware number " +:+ fmt_d (i + 1) +:+ ": " +:+ fmt_05d n)
  :: match dict with
     | None => []
     | Some d =>
         match d !! n with
         | Some word => [" - " +:+ word]
         | None =>
             [" - (word not found in dictionary for number " +:+ fmt_05d n +:+ ")"]
         end
     end
  ++ [nl].

Definition number_word (dict : option (gmap Z string)) (n : Z) : list string :=
  match dict with
  | Some d => match d !! n with Some word => [word] | None => [] end
  | None => []
  end.

(** The words of the numbers that are in the dictionary, in order. *)
Definition found_words (dict : option (gmap Z string)) (ns : list Z)
  : list string :=
  match dict with
  | Some d => omap (fun n => d !! n) ns
  | None => []
  end.

(** What the loop prints for the numbers [ns], the first of which has
    index [i]. *)
Fixpoint numbers_output (dict : option (gmap Z string)) (i : Z) (ns : list Z)
  : list string :=
  match ns with
  | [] => []
  | n :: ns' => number_output dict i n ++ numbers_output dict (i + 1) ns'
  end.

(** The dictionary [main] works with: none without [-d]. *)
Definition flag_dictionary (fl : flags) (e : env)
  : option (gmap Z string) * error :=
  if String.eqb (dictFile fl) "" then (None, None)
  else loadDictionary (files e) (dictFile fl).

(** What a run [r] that generated the numbers [ns] has on standard output
    when the passphrase is joined with [sep]: the lines of the numbers,
    then the passphrase line when [-p] is set and some word was found;
    a passphrase line is printed in that case only, and it is the line of
    the found words. *)
Definition passphrase_output (fl : flags) (dict : option (gmap Z string))
    (ns : list Z) (sep : string) (r : run) : Prop :=
  let words := found_words dict ns in
  stdout r =
    numbers_output dict 0 ns ++
    (if showPassphrase fl && bool_decide (words <> [])
     then [passphrase_line sep words] else []) /\
  ((exists line, is_passphrase_line line /\ line ∈ stdout r) <->
   showPassphrase fl = true /\ words <> []) /\
  (forall line, is_passphrase_line line -> line ∈ stdout r ->
                line = passphrase_line sep words).

(** How the loop over the rolls ends. *)
Inductive loop_end : Type :=
| Completed (passphraseWords : list string)
| Fatal (stderr_line : string)
| Crashed (msg : string)
| Stalled.

Section Program.
Context {Src : Type}.
Variable sampler : Z -> Src -> outcome ((Z * error) * Src).

(** [for i := 0; i < *rolls; i++ { ... }], started at [i] with [n]
    iterations to go. *)
Fixpoint number_loop (dict : option (gmap Z string)) (n : nat) (i : Z)
    (s : Src) (passphraseWords : list string) (out : list string)
  : list string * loop_end :=
  match n with
  | O => (out, Completed passphraseWords)
  | S n' =>
      match generateDicewareNumber sampler 5 s with
      | Returns ((_, Some e), _) =>
          (out, Fatal ("Error generating Diceware number: " +:+ e +:+ nl))
      | Returns ((dicewareNumber, None), s') =>
          number_loop dict n' (i + 1) s'
            (passphraseWords ++ number_word dict dicewareNumber)
            (out ++ number_output dict i dicewareNumber)
      | Panics m => (out, Crashed m)
      | Blocked => (out, Stalled)
      end
  end.

(** The part of [main] from the loading of the dictionary on, which the
    two variants share up to the separator. *)
Definition generate_and_print (fl : flags) (e : env) (sep : string)
    (s : Src) : run :=
  let '(dict, err) := flag_dictionary fl e in
  match err with
  | Some msg =>
      {| stdout := [];
         stderr := ["Error loading dictionary: " +:+ msg +:+ nl];
         exit_status := Exit 1 |}
  | None =>
      match number_loop dict (Z.to_nat (rolls fl)) 0 s [] [] with
      | (out, Completed passphraseWords) =>
          {| stdout :=
               out ++
               (if showPassphrase fl && (0 <? Z.of_nat (length passphraseWords))
                then [passphrase_line sep passphraseWords] else []);
             stderr := [];
             exit_status := Exit 0 |}
      | (out, Fatal line) =>
          {| stdout := out; stderr := [line]; exit_status := Exit 1 |}
      | (out, Crashed m) =>
          {| stdout := out; stderr := []; exit_status := Crash m |}
      | (out, Stalled) =>
          {| stdout := out; stderr := []; exit_status := Hang |}
      end
  end.

(** [generates s ns s']: starting from [s], successive calls of
    [generateDicewareNumber] succeed with the numbers [ns]. *)
Inductive generates : Src -> list Z -> Src -> Prop :=
| generates_nil s : generates s [] s
| generates_cons s n s1 ns s2 :
    generateDicewareNumber sampler 5 s = Returns ((n, None), s1) ->
    generates s1 ns s2 ->
    generates s (n :: ns) s2.
End Program.

Definition rolls_error : string :=
  "Error: Number of rolls must be at least 1" +:+ nl.

(** ** The crypto/rand variant ([dwp.go]) *)

Module CryptoRand.

(** One [binary.Read] of four bytes from [rand.Reader]. *)
Inductive read : Type :=
| Read4 (b0 b1 b2 b3 : Z)
| ReadErr (e : string).

Definition source : Type := list read.

(** [binary.BigEndian.Uint32]. *)
Definition be_uint32 (b0 b1 b2 b3 : Z) : Z :=
  Z.lor (Z.lor (Z.lor (Z.shiftl b0 24) (Z.shiftl b1 16)) (Z.shiftl b2 8)) b3.

(** The value computed from the 32-bit word that was read: the word is
    stored in an [int32], its sign bit is masked off, and the remainder
    of the division by [max] is returned. *)
Definition sample_word (max : Z) (w : Z) : Z :=
  let n := int32 w in
  let n := Z.land n 0x7FFFFFFF in
  Z.rem n max.

Definition secureRandInt (max : Z) (s : source)
  : outcome ((Z * error) * source) :=
  match s with
  | [] => Blocked
  | ReadErr e :: s' => Returns ((0, Some e), s')
  | Read4 b0 b1 b2 b3 :: s' =>
      if max =? 0 then Panics "runtime error: integer divide by zero"
      else Returns ((sample_word max (be_uint32 b0 b1 b2 b3), None), s')
  end.

(** The read that delivers the 32-bit word [w], most significant byte
    first. *)
Definition read_of_word (w : Z) : read :=
  Read4 (Z.shiftr w 24 mod 256) (Z.shiftr w 16 mod 256)
        (Z.shiftr w 8 mod 256) (w mod 256).

(** What [secureRandInt] returns when the read delivers the word [w]. *)
Definition output_on_word (max w : Z) : option Z :=
  match secureRandInt max [read_of_word w] with
  | Returns ((v, None), _) => Some v
  | _ => None
  end.

(** Number of words below [bound] on which [secureRandInt] returns [v];
    the words below [2^31] are the values that the masking leaves. *)
Definition sampler_preimages (max v bound : Z) : Z :=
  count_below
    (fun w => match output_on_word max w with
              | Some v' => v' =? v
              | None => false
              end) bound.

(** Number of masked values in [[0, 2^31)] whose remainder is [v]. *)
Definition masked_preimages (max v : Z) : Z :=
  count_below (fun n => Z.rem n max =? v) (2 ^ 31).

(** Number of raw 32-bit words that [secureRandInt] maps to [v]. *)
Definition raw_preimages (max v : Z) : Z :=
  count_below (fun w => sample_word max w =? v) (2 ^ 32).

Definition printUsage (e : env) : list string :=
  [ "Usage: " +:+ prog e +:+ " [-r rolls] [-d dictionary] [-p]" +:+ nl;
    "  -r rolls       number of Diceware numbers to generate (default 10)" +:+ nl;
    "  -d dictionary  path to Diceware dictionary file" +:+ nl;
    "  -p             output complete passphrase" +:+ nl;
    flag_defaults e ].

(** [main]; this variant has no [-s] flag, the words are joined by one
    space. *)
Definition main (fl : flags) (e : env) (s : source) : run :=
  if rolls fl <? 1 then
    {| stdout := []; stderr := rolls_error :: printUsage e;
       exit_status := Exit 1 |}
  else generate_and_print secureRandInt fl e " " s.

End CryptoRand.

(** ** The TPM variant *)

Module Tpm.

(** One [tpm2.GetRandom(rwc, 1)]: the byte the module returns, the error
    of the exchange, or a successful exchange in which the module
    returned no byte. *)
Inductive reply : Type :=
| Random (b : Z)
| GetRandomErr (e : string)
| NoBytes.

Definition source : Type := list reply.

(** The module answers with bytes. *)
Definition byte_reply (r : reply) : Prop :=
  match r with
  | Random b => is_byte b
  | GetRandomErr _ => True
  | NoBytes => True
  end.

(** [byte(255 - (255 % uint8(max)))]; the caller has checked that
    [uint8 max] is not zero. *)
Definition maxValid (max : Z) : Z :=
  uint8 (255 - Z.rem 255 (uint8 max)).

(** What one pass of the loop does with the byte it drew. *)
Inductive draw : Type :=
| Retry
| Accept (v : Z).

Definition classify (max : Z) (b : Z) : draw :=
  if maxValid max <=? b then Retry
  else Accept (int32 (Z.rem b (uint8 max))).

Fixpoint rejection_loop (max : Z) (s : source)
  : outcome ((Z * error) * source) :=
  match s with
  | [] => Blocked
  | GetRandomErr e :: s' => Returns ((0, Some e), s')
  | NoBytes :: _ =>
      Panics "runtime error: index out of range [0] with length 0"
  | Random b :: s' =>
      match classify max b with
      | Retry => rejection_loop max s'
      | Accept v => Returns ((v, None), s')
      end
  end.

Definition secureRandInt (max : Z) (s : source)
  : outcome ((Z * error) * source) :=
  if uint8 max =? 0 then Panics "runtime error: integer divide by zero"
  else rejection_loop max s.

(** Number of byte values that are accepted and mapped to [v]. *)
Definition accepted_preimages (max v : Z) : Z :=
  count_below
    (fun b => match classify max b with
              | Accept r => r =? v
              | Retry => false
              end) 256.

Definition printUsage (e : env) : list string :=
  [ "Usage: " +:+ prog e +:+ " [-r rolls] [-d dictionary] [-p] [-s separator]" +:+ nl;
    "  -r rolls       number of Diceware numbers to generate (default 10)" +:+ nl;
    "  -d dictionary  path to Diceware dictionary file" +:+ nl;
    "  -p             output complete passphrase" +:+ nl;
    "  -s separator   separator for passphrase words (default space)" +:+ nl;
    flag_defaults e ].

(** [main]; [tpm] is what [tpm2.OpenTPM] gives: an error, or the handle
    with the replies the module will give. When the handle cannot be
    opened [main] returns, and a Go program whose [main] returns exits
    with status 0. *)
Definition main (fl : flags) (e : env) (tpm : string + source) : run :=
  if rolls fl <? 1 then
    {| stdout := []; stderr := rolls_error :: printUsage e;
       exit_status := Exit 1 |}
  else
    match tpm with
    | inl err =>
        {| stdout := []; stderr := ["Failed to open TPM: " +:+ err +:+ nl];
           exit_status := Exit 0 |}
    | inr rwc => generate_and_print secureRandInt fl e (separator fl) rwc
    end.

End Tpm.

(** ** Auxiliary notions for the statements *)

(** A read of the platform generator that delivered its four bytes. *)
Definition delivered (r : CryptoRand.read) : Prop :=
  match r with
  | CryptoRand.Read4 _ _ _ _ => True
  | CryptoRand.ReadErr _ => False
  end.

(** The value [secureRandInt] of the crypto/rand variant computes from a
    read that delivered. *)
Definition roll_of_read (max : Z) (r : CryptoRand.read) : Z :=
  match r with
  | CryptoRand.Read4 b0 b1 b2 b3 =>
      CryptoRand.sample_word max (CryptoRand.be_uint32 b0 b1 b2 b3)
  | CryptoRand.ReadErr _ => 0
  end.

(** The outputs of a sampler are evenly spread when any two of them have
    the same number of preimages. *)
Definition evenly_spread (preimages : Z -> Z) (max : Z) : Prop :=
  forall v1 v2, 0 <= v1 < max -> 0 <= v2 < max -> preimages v1 = preimages v2.

Fixpoint has_newline (s : string) : bool :=
  match s with
  | "" => false
  | String c s' => Ascii.eqb c newline || has_newline s'
  end.

(** The blanks of ASCII that can stand in a field: vertical tab, form
    feed, carriage return and space (a tab ends the field, a newline the
    line). *)
Definition blank (c : ascii) : bool :=
  let b := byte_of c in
  between 11 13 b || (b =? 32).

Fixpoint all_blank (s : string) : bool :=
  match s with
  | "" => true
  | String c s' => blank c && all_blank s'
  end.

(** The character of a die face: ['1'] for the roll 0, up to ['6']. *)
Definition face (roll : Z) : ascii := ascii_of_N (Z.to_N (roll + 49)).

Definition faces (rolls : list Z) : string :=
  string_of_list_ascii (map face rolls).

(** * Properties *)

(** ** Machine integers *)

Lemma wrap_signed_id w z :
  0 < w -> - 2 ^ (w - 1) <= z < 2 ^ (w - 1) -> wrap_signed w z = z.
Proof.
  intros Hw Hz. unfold wrap_signed.
  assert (Hp : 2 ^ w = 2 * 2 ^ (w - 1)).
  { rewrite <- Z.pow_succ_r by lia. f_equal. lia. }
  rewrite Z.mod_small; lia.
Qed.

Lemma int32_id z : - 2 ^ 31 <= z < 2 ^ 31 -> int32 z = z.
Proof. intros H. apply wrap_signed_id; [lia | exact H]. Qed.

Lemma int_id z : - 2 ^ 63 <= z < 2 ^ 63 -> int z = z.
Proof. intros H. apply wrap_signed_id; [lia | exact H]. Qed.

Lemma int32_mod_2_31 w : int32 w mod 2 ^ 31 = w mod 2 ^ 31.
Proof.
  unfold int32, wrap_signed.
  rewrite (Z.mod_eq (w + 2 ^ (32 - 1)) (2 ^ 32)) by lia.
  set (q := (w + 2 ^ (32 - 1)) / 2 ^ 32).
  replace (w + 2 ^ (32 - 1) - 2 ^ 32 * q - 2 ^ (32 - 1))
    with (w + (- 2 * q) * 2 ^ 31) by (change (2 ^ 32) with (2 * 2 ^ 31);
                                      change (32 - 1) with 31; ring).
  apply Z.mod_add. lia.
Qed.

(** ** Counting *)

Lemma count_upto_ext p q n :
  (forall k, 0 <= k < Z.of_nat n -> p k = q k) ->
  count_upto p n = count_upto q n.
Proof.
  induction n as [|n IH]; intros H; [reflexivity|].
  cbn [count_upto]. rewrite H by lia. rewrite IH; [reflexivity|].
  intros k Hk. apply H. lia.
Qed.

Lemma count_upto_add p a b :
  count_upto p (a + b) =
  count_upto p a + count_upto (fun k => p (Z.of_nat a + k)) b.
Proof.
  induction b as [|b IH].
  - rewrite Nat.add_0_r. cbn [count_upto]. lia.
  - rewrite Nat.add_succ_r. cbn [count_upto]. rewrite IH.
    rewrite Nat2Z.inj_add. lia.
Qed.

Lemma count_upto_none p n :
  (forall k, 0 <= k < Z.of_nat n -> p k = false) -> count_upto p n = 0.
Proof.
  induction n as [|n IH]; intros H; [reflexivity|].
  cbn [count_upto]. rewrite H by lia. rewrite IH; [reflexivity|].
  intros k Hk. apply H. lia.
Qed.

Lemma count_upto_mod m v n :
  0 <= v < m ->
  count_upto (fun k => k mod m =? v) n =
  Z.of_nat n / m + (if v <? Z.of_nat n mod m then 1 else 0).
Proof.
  intros Hv. induction n as [|n IH].
  - cbn [count_upto]. change (Z.of_nat 0) with 0.
    rewrite Z.div_0_l, Z.mod_0_l by lia.
    destruct (Z.ltb_spec v 0); lia.
  - cbn [count_upto]. rewrite IH. rewrite Nat2Z.inj_succ.
    set (k := Z.of_nat n). assert (Hk : 0 <= k) by (unfold k; lia).
    pose proof (Z.div_mod k m ltac:(lia)) as Hdm.
    pose proof (Z.mod_pos_bound k m ltac:(lia)) as Hr.
    destruct (Z.eq_dec (k mod m) (m - 1)) as [Hlast|Hnot].
    + assert (Hq : Z.succ k / m = k / m + 1).
      { symmetry. apply (Z.div_unique_pos _ _ _ 0); lia. }
      assert (Hm : Z.succ k mod m = 0).
      { symmetry. apply (Z.mod_unique_pos _ _ (k / m + 1)); lia. }
      rewrite Hq, Hm.
      destruct (Z.eqb_spec (k mod m) v), (Z.ltb_spec v (k mod m)),
        (Z.ltb_spec v 0); lia.
    + assert (Hq : Z.succ k / m = k / m).
      { symmetry. apply (Z.div_unique_pos _ _ _ (k mod m + 1)); lia. }
      assert (Hm : Z.succ k mod m = k mod m + 1).
      { symmetry. apply (Z.mod_unique_pos _ _ (k / m)); lia. }
      rewrite Hq, Hm.
      destruct (Z.eqb_spec (k mod m) v), (Z.ltb_spec v (k mod m)),
        (Z.ltb_spec v (k mod m + 1)); lia.
Qed.

Lemma count_below_ext p q n :
  (forall k, 0 <= k < n -> p k = q k) -> count_below p n = count_below q n.
Proof.
  intros H. unfold count_below. apply count_upto_ext.
  intros k Hk. apply H. lia.
Qed.

Lemma count_below_add p a b :
  0 <= a -> 0 <= b ->
  count_below p (a + b) = count_below p a + count_below (fun k => p (a + k)) b.
Proof.
  intros Ha Hb. unfold count_below.
  rewrite Z2Nat.inj_add by assumption. rewrite count_upto_add.
  rewrite Z2Nat.id by assumption. reflexivity.
Qed.

Lemma count_below_none p n :
  (forall k, 0 <= k < n -> p k = false) -> count_below p n = 0.
Proof.
  intros H. unfold count_below. apply count_upto_none.
  intros k Hk. apply H. lia.
Qed.

Lemma count_below_mod m v n :
  0 <= v < m -> 0 <= n ->
  count_below (fun k => k mod m =? v) n =
  n / m + (if v <? n mod m then 1 else 0).
Proof.
  intros Hv Hn. unfold count_below.
  rewrite count_upto_mod by assumption.
  rewrite Z2Nat.id by assumption. reflexivity.
Qed.

(** ** The sampler of the crypto/rand variant *)

Lemma sample_word_masked max w :
  0 < max -> CryptoRand.sample_word max w = (w mod 2 ^ 31) mod max.
Proof.
  intros Hmax. unfold CryptoRand.sample_word.
  change 0x7FFFFFFF with (Z.ones 31).
  rewrite Z.land_ones by lia. rewrite int32_mod_2_31.
  apply Z.rem_mod_nonneg; [|exact Hmax].
  apply Z.mod_pos_bound. lia.
Qed.

Lemma sample_word_range max w :
  0 < max -> 0 <= CryptoRand.sample_word max w < max.
Proof.
  intros Hmax. rewrite sample_word_masked by exact Hmax.
  apply Z.mod_pos_bound. exact Hmax.
Qed.

Lemma masked_preimages_closed max v :
  0 <= v < max ->
  CryptoRand.masked_preimages max v =
  2 ^ 31 / max + (if v <? 2 ^ 31 mod max then 1 else 0).
Proof.
  intros Hv. unfold CryptoRand.masked_preimages.
  rewrite <- count_below_mod by lia.
  apply count_below_ext. intros k Hk.
  rewrite Z.rem_mod_nonneg by lia. reflexivity.
Qed.

Lemma raw_preimages_masked max v :
  0 <= v < max ->
  CryptoRand.raw_preimages max v = 2 * CryptoRand.masked_preimages max v.
Proof.
  intros Hv. unfold CryptoRand.raw_preimages, CryptoRand.masked_preimages.
  change (2 ^ 32) with (2 ^ 31 + 2 ^ 31).
  rewrite count_below_add by lia.
  rewrite (count_below_ext _ (fun n => Z.rem n max =? v)).
  - rewrite (count_below_ext (fun k => _ (2 ^ 31 + k) =? v)
               (fun n => Z.rem n max =? v)); [lia|].
    intros k Hk. rewrite sample_word_masked by lia.
    replace (2 ^ 31 + k) with (k + 1 * 2 ^ 31) by ring.
    rewrite Z.mod_add by lia. rewrite (Z.mod_small k) by lia.
    rewrite Z.rem_mod_nonneg by lia. reflexivity.
  - intros k Hk. rewrite sample_word_masked by lia.
    rewrite (Z.mod_small k) by lia.
    rewrite Z.rem_mod_nonneg by lia. reflexivity.
Qed.

Lemma raw_preimages_closed max v :
  0 <= v < max ->
  CryptoRand.raw_preimages max v =
  2 * (2 ^ 31 / max + (if v <? 2 ^ 31 mod max then 1 else 0)).
Proof.
  intros Hv. rewrite raw_preimages_masked by exact Hv.
  rewrite masked_preimages_closed by exact Hv. reflexivity.
Qed.

(** ** The sampler of the TPM variant *)

Lemma maxValid_multiple max :
  1 <= max <= 255 -> Tpm.maxValid max = max * (255 / max).
Proof.
  intros Hmax. unfold Tpm.maxValid, uint8.
  rewrite (Z.mod_small max) by lia.
  rewrite Z.rem_mod_nonneg by lia.
  pose proof (Z.div_mod 255 max ltac:(lia)) as Hdm.
  pose proof (Z.mod_pos_bound 255 max ltac:(lia)) as Hr.
  rewrite Z.mod_small; lia.
Qed.

Lemma maxValid_range max : 1 <= max <= 255 -> 1 <= Tpm.maxValid max <= 255.
Proof.
  intros Hmax. unfold Tpm.maxValid, uint8.
  rewrite (Z.mod_small max) by lia.
  rewrite Z.rem_mod_nonneg by lia.
  pose proof (Z.mod_pos_bound 255 max ltac:(lia)) as Hr.
  pose proof (Z.mod_le 255 max ltac:(lia) ltac:(lia)) as Hle.
  rewrite Z.mod_small; lia.
Qed.

Lemma classify_spec max b :
  1 <= max <= 255 -> 0 <= b ->
  Tpm.classify max b =
  if Tpm.maxValid max <=? b then Tpm.Retry else Tpm.Accept (b mod max).
Proof.
  intros Hmax Hb. unfold Tpm.classify.
  destruct (Z.leb_spec (Tpm.maxValid max) b) as [|Hlt]; [reflexivity|].
  pose proof (maxValid_range max Hmax).
  unfold uint8. rewrite (Z.mod_small max) by lia.
  rewrite Z.rem_mod_nonneg by lia.
  pose proof (Z.mod_pos_bound b max ltac:(lia)).
  rewrite int32_id by lia. reflexivity.
Qed.

Lemma accepted_preimages_uniform max v :
  1 <= max <= 255 -> 0 <= v < max ->
  Tpm.accepted_preimages max v = 255 / max.
Proof.
  intros Hmax Hv. unfold Tpm.accepted_preimages.
  pose proof (maxValid_range max Hmax) as HM.
  replace 256 with (Tpm.maxValid max + (256 - Tpm.maxValid max)) by ring.
  rewrite count_below_add by lia.
  match goal with
  | |- ?a + ?b = _ => assert (Hhigh : b = 0); [|rewrite Hhigh, Z.add_0_r]
  end.
  - apply count_below_none. intros k Hk. rewrite classify_spec by lia.
    destruct (Z.leb_spec (Tpm.maxValid max) (Tpm.maxValid max + k));
      [reflexivity|lia].
  - rewrite (count_below_ext _ (fun k => k mod max =? v)).
    + rewrite count_below_mod by lia.
      rewrite maxValid_multiple by exact Hmax.
      rewrite Z.mul_comm, Z.mod_mul, Z.div_mul by lia.
      destruct (Z.ltb_spec v 0); lia.
    + intros k Hk. rewrite classify_spec by lia.
      destruct (Z.leb_spec (Tpm.maxValid max) k); [lia|reflexivity].
Qed.

Lemma tpm_secureRandInt_256_panics s :
  Tpm.secureRandInt 256 s = Panics "runtime error: integer divide by zero".
Proof. reflexivity. Qed.

Lemma rejection_loop_range max s v e s' :
  1 <= max <= 255 ->
  Forall Tpm.byte_reply s ->
  Tpm.rejection_loop max s = Returns ((v, e), s') -> 0 <= v < max.
Proof.
  intros Hmax Hs. induction Hs as [|r s Hr Hs IH]; cbn [Tpm.rejection_loop].
  - discriminate.
  - destruct r as [b|msg|].
    + unfold Tpm.byte_reply, is_byte in Hr. rewrite classify_spec by lia.
      destruct (Z.leb_spec (Tpm.maxValid max) b); [exact IH|].
      intros [= <- _ _]. apply Z.mod_pos_bound. lia.
    + intros [= <- _ _]. lia.
    + discriminate.
Qed.

Lemma spec_limit_above_maxValid max :
  1 <= max <= 255 -> Tpm.maxValid max <= 256 - 256 mod max.
Proof.
  intros Hmax. rewrite maxValid_multiple by exact Hmax.
  pose proof (Z.div_mod 256 max ltac:(lia)) as Hdm.
  assert (255 / max <= 256 / max) by (apply Z.div_le_mono; lia).
  nia.
Qed.

(** C2. For [max] in 2..256 and every byte [b], the rejection sampler of
    the TPM variant never returns a value outside [[0, max)]; a byte at or
    above [256 - 256 mod max] is retried, that is, the call goes on with
    the next reply as if the byte had not been drawn; and a byte is either
    retried in this way or ends the call with [b mod max], leaving the
    later replies unread. At [max = 256] the conversion [uint8(max)] is 0
    and the call panics before it draws a byte. *)
Theorem tpm_rejection_sampling max b rest :
  2 <= max <= 256 -> is_byte b ->
  (forall s v e s',
      Forall Tpm.byte_reply s ->
      Tpm.secureRandInt max s = Returns ((v, e), s') -> 0 <= v < max) /\
  (256 - 256 mod max <= b ->
   Tpm.secureRandInt max (Tpm.Random b :: rest) = Tpm.secureRandInt max rest) /\
  (Tpm.secureRandInt max (Tpm.Random b :: rest) = Tpm.secureRandInt max rest \/
   Tpm.secureRandInt max (Tpm.Random b :: rest) =
     Returns ((b mod max, None), rest)) /\
  (max = 256 ->
   forall s, Tpm.secureRandInt max s =
             Panics "runtime error: integer divide by zero").
Proof.
  intros Hmax Hb. unfold is_byte in Hb.
  destruct (Z.eq_dec max 256) as [->|Hne].
  { split; [|split; [|split]].
    - intros s v e s' _ H. discriminate H.
    - reflexivity.
    - left. reflexivity.
    - reflexivity. }
  assert (Hm : 1 <= max <= 255) by lia.
  assert (Hu : (uint8 max =? 0) = false).
  { unfold uint8. rewrite Z.mod_small by lia. apply Z.eqb_neq. lia. }
  unfold Tpm.secureRandInt. rewrite Hu. cbn [Tpm.rejection_loop].
  rewrite classify_spec by lia.
  pose proof (spec_limit_above_maxValid max Hm) as Hlim.
  split; [|split; [|split]].
  - intros s v e s' Hs. apply rejection_loop_range; assumption.
  - intros Hhigh. destruct (Z.leb_spec (Tpm.maxValid max) b); [reflexivity|lia].
  - destruct (Z.leb_spec (Tpm.maxValid max) b); [left|right]; reflexivity.
  - intros ->. lia.
Qed.

Lemma tpm_rejection_sampling_witness :
  Tpm.secureRandInt 6 [Tpm.Random 253; Tpm.Random 9] =
  Tpm.secureRandInt 6 [Tpm.Random 9].
Proof.
  apply (proj1 (proj2 (tpm_rejection_sampling 6 253 [Tpm.Random 9]
                         ltac:(lia) ltac:(unfold is_byte; lia)))).
  vm_compute. discriminate.
Defined.

(** C9. For [max] in 1..255, when the bytes the module delivers contain a
    byte below [255 - 255 mod max], the rejection loop ends at the first
    such byte [b]: it returns [b mod max] and has read the replies up to
    and including [b], no more. *)
Theorem tpm_rejection_loop_terminates max pre b rest :
  1 <= max <= 255 ->
  Forall (fun x => 255 - 255 mod max <= x <= 255) pre ->
  0 <= b < 255 - 255 mod max ->
  Tpm.secureRandInt max (map Tpm.Random pre ++ Tpm.Random b :: rest) =
  Returns ((b mod max, None), rest).
Proof.
  intros Hmax Hpre Hb.
  assert (HM : Tpm.maxValid max = 255 - 255 mod max).
  { rewrite maxValid_multiple by exact Hmax.
    pose proof (Z.div_mod 255 max ltac:(lia)). lia. }
  unfold Tpm.secureRandInt.
  replace (uint8 max =? 0) with false.
  2:{ symmetry. unfold uint8. rewrite Z.mod_small by lia. apply Z.eqb_neq. lia. }
  induction Hpre as [|x pre Hx Hpre IH]; cbn [map app Tpm.rejection_loop].
  - rewrite classify_spec by lia. rewrite HM.
    destruct (Z.leb_spec (255 - 255 mod max) b); [lia|reflexivity].
  - rewrite classify_spec.
    + rewrite HM. destruct (Z.leb_spec (255 - 255 mod max) x); [exact IH|lia].
    + exact Hmax.
    + pose proof (Z.mod_pos_bound 255 max ltac:(lia)).
      pose proof (Z.mod_le 255 max ltac:(lia) ltac:(lia)). lia.
Qed.

Lemma tpm_rejection_loop_terminates_witness :
  Tpm.secureRandInt 6 (map Tpm.Random [255; 252] ++ Tpm.Random 17 :: [Tpm.Random 3]) =
  Returns ((17 mod 6, None), [Tpm.Random 3]).
Proof.
  apply (tpm_rejection_loop_terminates 6 [255; 252] 17 [Tpm.Random 3]).
  - lia.
  - repeat constructor; vm_compute; discriminate.
  - vm_compute. split; [discriminate|reflexivity].
Defined.

Lemma lor_shiftl_low a b n :
  0 <= n -> 0 <= b < 2 ^ n -> Z.lor (Z.shiftl a n) b = a * 2 ^ n + b.
Proof.
  intros Hn Hb. apply Z.bits_inj'. intros i Hi. rewrite Z.lor_spec.
  destruct (Z.lt_ge_cases i n) as [Hlt|Hge].
  - rewrite Z.shiftl_spec_low by exact Hlt. cbn [orb].
    rewrite <- (Z.mod_pow2_bits_low (a * 2 ^ n + b) n i) by lia.
    rewrite Z.add_comm, Z.mod_add by lia.
    rewrite Z.mod_small by exact Hb. reflexivity.
  - rewrite Z.shiftl_spec by exact Hi.
    replace (Z.testbit b i) with false.
    2:{ symmetry. rewrite <- (Z.mod_small b (2 ^ n)) by exact Hb.
        apply Z.mod_pow2_bits_high. lia. }
    rewrite orb_false_r.
    replace i with (i - n + n) at 2 by ring.
    rewrite <- Z.div_pow2_bits by lia.
    f_equal. apply (Z.div_unique_pos _ _ _ b); [exact Hb|ring].
Qed.

Lemma be_uint32_value b0 b1 b2 b3 :
  0 <= b1 < 256 -> 0 <= b2 < 256 -> 0 <= b3 < 256 ->
  CryptoRand.be_uint32 b0 b1 b2 b3 = ((b0 * 256 + b1) * 256 + b2) * 256 + b3.
Proof.
  intros H1 H2 H3. unfold CryptoRand.be_uint32.
  replace (Z.shiftl b0 24) with (Z.shiftl (Z.shiftl (Z.shiftl b0 8) 8) 8)
    by (rewrite !Z.shiftl_shiftl by lia; reflexivity).
  replace (Z.shiftl b1 16) with (Z.shiftl (Z.shiftl b1 8) 8)
    by (rewrite !Z.shiftl_shiftl by lia; reflexivity).
  rewrite <- !Z.shiftl_lor.
  rewrite (lor_shiftl_low b0 b1 8) by (change (2 ^ 8) with 256; lia).
  rewrite (lor_shiftl_low _ b2 8) by (change (2 ^ 8) with 256; lia).
  rewrite (lor_shiftl_low _ b3 8) by (change (2 ^ 8) with 256; lia).
  change (2 ^ 8) with 256. reflexivity.
Qed.

Lemma be_uint32_read_of_word w :
  0 <= w < 2 ^ 32 ->
  CryptoRand.be_uint32 (Z.shiftr w 24 mod 256) (Z.shiftr w 16 mod 256)
    (Z.shiftr w 8 mod 256) (w mod 256) = w.
Proof.
  intros Hw. rewrite be_uint32_value by (apply Z.mod_pos_bound; lia).
  rewrite !Z.shiftr_div_pow2 by lia.
  change (2 ^ 24) with 16777216. change (2 ^ 16) with 65536.
  change (2 ^ 8) with 256. change (2 ^ 32) with 4294967296 in Hw.
  Z.to_euclidean_division_equations. lia.
Qed.

Lemma output_on_word_masked max w :
  0 < max -> 0 <= w < 2 ^ 32 ->
  CryptoRand.output_on_word max w = Some ((w mod 2 ^ 31) mod max).
Proof.
  intros Hmax Hw.
  unfold CryptoRand.output_on_word, CryptoRand.read_of_word,
    CryptoRand.secureRandInt.
  destruct (Z.eqb_spec max 0) as [|_]; [lia|].
  rewrite be_uint32_read_of_word by exact Hw.
  rewrite sample_word_masked by exact Hmax. reflexivity.
Qed.

Lemma sampler_preimages_masked max v :
  0 <= v < max ->
  CryptoRand.sampler_preimages max v (2 ^ 31) =
  2 ^ 31 / max + (if v <? 2 ^ 31 mod max then 1 else 0).
Proof.
  intros Hv. unfold CryptoRand.sampler_preimages.
  rewrite <- count_below_mod by lia.
  apply count_below_ext. intros k Hk.
  rewrite output_on_word_masked by lia.
  rewrite (Z.mod_small k) by lia. reflexivity.
Qed.

(** C4. In the variant that reads 32-bit words, [secureRandInt] masks the
    sign bit off and takes the remainder modulo [max]: on a word [w] it
    returns [(w mod 2^31) mod max], where [w mod 2^31] is the masked
    value. For [max = 6] the [2^31] masked values do not spread evenly
    over the outputs: [2^31 mod 6 = 2], so [secureRandInt] returns 0 and 1
    on one masked value more than it returns 2, 3, 4 and 5. *)
Theorem masked_modulo_biased_at_6 :
  2 ^ 31 mod 6 = 2 /\
  map (fun v => CryptoRand.sampler_preimages 6 v (2 ^ 31)) [0; 1; 2; 3; 4; 5] =
  [357913942; 357913942; 357913941; 357913941; 357913941; 357913941] /\
  (forall w, 0 <= w < 2 ^ 32 ->
     Z.land (int32 w) 0x7FFFFFFF = w mod 2 ^ 31 /\
     CryptoRand.output_on_word 6 w = Some ((w mod 2 ^ 31) mod 6) /\
     CryptoRand.secureRandInt 6 [CryptoRand.read_of_word w] =
       Returns (((w mod 2 ^ 31) mod 6, None), [])).
Proof.
  split; [reflexivity|]. split.
  - cbn [map].
    rewrite (sampler_preimages_masked 6 0), (sampler_preimages_masked 6 1),
      (sampler_preimages_masked 6 2), (sampler_preimages_masked 6 3),
      (sampler_preimages_masked 6 4), (sampler_preimages_masked 6 5) by lia.
    reflexivity.
  - intros w Hw. split; [|split].
    + change 0x7FFFFFFF with (Z.ones 31). rewrite Z.land_ones by lia.
      apply int32_mod_2_31.
    + apply output_on_word_masked; lia.
    + unfold CryptoRand.read_of_word, CryptoRand.secureRandInt.
      destruct (Z.eqb_spec 6 0) as [|_]; [lia|].
      rewrite be_uint32_read_of_word by exact Hw.
      rewrite sample_word_masked by lia. reflexivity.
Qed.

Lemma masked_modulo_biased_at_6_witness :
  CryptoRand.secureRandInt 6 [CryptoRand.read_of_word 4294967295] =
  Returns (((4294967295 mod 2 ^ 31) mod 6, None), []).
Proof.
  apply (proj2 (proj2 (proj2 (proj2 masked_modulo_biased_at_6) 4294967295
                         ltac:(lia)))).
Defined.

(** C1. The sampler is to be free of modulo bias in both variants. The
    TPM variant is (see [accepted_preimages_uniform]); the crypto/rand
    variant is not: for [max = 6], the only bound the program uses, the
    [2^32] words it can read map to the outputs 0 and 1 two times more
    often than to the outputs 2 to 5, while every output of the TPM
    variant has the same 42 accepted bytes. *)
Theorem cryptorand_sampler_biased_at_6 :
  map (CryptoRand.raw_preimages 6) [0; 1; 2; 3; 4; 5] =
  [715827884; 715827884; 715827882; 715827882; 715827882; 715827882] /\
  map (Tpm.accepted_preimages 6) [0; 1; 2; 3; 4; 5] = [42; 42; 42; 42; 42; 42].
Proof.
  split.
  - cbn [map].
    rewrite (raw_preimages_closed 6 0), (raw_preimages_closed 6 1),
      (raw_preimages_closed 6 2), (raw_preimages_closed 6 3),
      (raw_preimages_closed 6 4), (raw_preimages_closed 6 5) by lia.
    reflexivity.
  - cbn [map].
    rewrite (accepted_preimages_uniform 6 0), (accepted_preimages_uniform 6 1),
      (accepted_preimages_uniform 6 2), (accepted_preimages_uniform 6 3),
      (accepted_preimages_uniform 6 4), (accepted_preimages_uniform 6 5) by lia.
    reflexivity.
Qed.

(** Both samplers stay in range. *)
Lemma cryptorand_secureRandInt_range max s v e s' :
  0 < max ->
  CryptoRand.secureRandInt max s = Returns ((v, e), s') -> 0 <= v < max.
Proof.
  intros Hmax. unfold CryptoRand.secureRandInt.
  destruct s as [|[b0 b1 b2 b3|msg] s0]; [discriminate| |].
  - destruct (Z.eqb_spec max 0); [lia|].
    intros [= <- _ _]. apply sample_word_range. exact Hmax.
  - intros [= <- _ _]. lia.
Qed.

Lemma tpm_secureRandInt_range max s v e s' :
  1 <= max <= 255 -> Forall Tpm.byte_reply s ->
  Tpm.secureRandInt max s = Returns ((v, e), s') -> 0 <= v < max.
Proof.
  intros Hmax Hs. unfold Tpm.secureRandInt.
  destruct (uint8 max =? 0); [discriminate|].
  apply rejection_loop_range; assumption.
Qed.

(** ** The Diceware number generator *)

Lemma digit_at_decompose hi d lo i :
  0 <= i -> 0 <= hi -> 0 <= d < 10 -> 0 <= lo < 10 ^ i ->
  digit_at (hi * 10 ^ (i + 1) + d * 10 ^ i + lo) i = d.
Proof.
  intros Hi Hhi Hd Hlo. unfold digit_at.
  assert (Hp : 10 ^ (i + 1) = 10 * 10 ^ i).
  { rewrite Z.pow_add_r by lia. lia. }
  assert (Hq : (hi * 10 ^ (i + 1) + d * 10 ^ i + lo) / 10 ^ i = hi * 10 + d).
  { symmetry. apply (Z.div_unique_pos _ _ _ lo); [exact Hlo|]. rewrite Hp. ring. }
  rewrite Hq. symmetry. apply (Z.mod_unique_pos _ _ hi); lia.
Qed.

Section GeneratorFacts.
Context {Src : Type}.
Variable sampler : Z -> Src -> outcome ((Z * error) * Src).

(** Successful draws only move the loop forward. *)
Lemma generate_loop_draws s rs s1 :
  draws sampler s rs s1 ->
  forall n acc, exists acc',
    generate_loop sampler (length rs + n) acc s =
    generate_loop sampler n acc' s1.
Proof.
  induction 1 as [s|s r s1 rs s2 Hr _ IH]; intros n acc.
  - exists acc. reflexivity.
  - cbn [length Nat.add generate_loop]. rewrite Hr. apply IH.
Qed.

(** C6. When a call of the sampler fails after fewer than [numDice]
    successful ones, [generateDicewareNumber] returns at once: the
    source is left as the failing call left it, the error wraps the
    sampler's error, and the number returned is 0 whatever had been
    accumulated. *)
Theorem generateDicewareNumber_first_error numDice s rs s1 v e s2 :
  draws sampler s rs s1 ->
  Z.of_nat (length rs) < numDice ->
  sampler 6 s1 = Returns ((v, Some e), s2) ->
  generateDicewareNumber sampler numDice s =
  Returns ((0, Some ("failed to generate random number: " +:+ e)), s2).
Proof.
  intros Hdraws Hlen Herr. unfold generateDicewareNumber.
  replace (Z.to_nat numDice)
    with (length rs + S (Z.to_nat numDice - S (length rs)))%nat by lia.
  destruct (generate_loop_draws s rs s1 Hdraws
              (S (Z.to_nat numDice - S (length rs))) 0) as [acc ->].
  cbn [generate_loop]. rewrite Herr. reflexivity.
Qed.

(** C5. When the five calls of the sampler succeed with values in
    [[0, 6)], [generateDicewareNumber] with [numDice = 5] returns the
    number accumulated by [result = result*10 + (roll+1)] over the rolls
    in order; the number lies in [[11111, 66666]] and its decimal digit at
    each of the five positions is the roll of that position plus one,
    hence in 1..6. *)
Theorem generateDicewareNumber_five s rs s' :
  draws sampler s rs s' ->
  length rs = 5%nat ->
  Forall (fun r => 0 <= r < 6) rs ->
  generateDicewareNumber sampler 5 s = Returns ((compose_rolls rs, None), s') /\
  11111 <= compose_rolls rs <= 66666 /\
  (forall i r, rs !! i = Some r ->
               digit_at (compose_rolls rs) (4 - Z.of_nat i) = r + 1) /\
  (forall i, 0 <= i < 5 -> 1 <= digit_at (compose_rolls rs) i <= 6).
Proof.
  intros Hdraws Hlen Hrange.
  destruct rs as [|r1 [|r2 [|r3 [|r4 [|r5 [|]]]]]]; try discriminate Hlen.
  clear Hlen.
  inversion Hdraws as [|? ? t1 ? ? H1 D1]; subst.
  inversion D1 as [|? ? t2 ? ? H2 D2]; subst.
  inversion D2 as [|? ? t3 ? ? H3 D3]; subst.
  inversion D3 as [|? ? t4 ? ? H4 D4]; subst.
  inversion D4 as [|? ? t5 ? ? H5 D5]; subst.
  inversion D5; subst.
  repeat match goal with
         | H : Forall _ (_ :: _) |- _ => inversion H; subst; clear H
         end.
  assert (Hdigits : forall i r, [r1; r2; r3; r4; r5] !! i = Some r ->
             digit_at (compose_rolls [r1; r2; r3; r4; r5]) (4 - Z.of_nat i) = r + 1).
  { intros i r Hi. unfold compose_rolls. cbn [fold_left].
    destruct i as [|[|[|[|[|i]]]]]; cbn in Hi; try discriminate Hi;
      injection Hi as <-.
    - replace (((((0 * 10 + (r1 + 1)) * 10 + (r2 + 1)) * 10 + (r3 + 1)) * 10 + (r4 + 1)) * 10 + (r5 + 1))
        with (0 * 10 ^ (4 + 1) + (r1 + 1) * 10 ^ 4
              + ((r2 + 1) * 1000 + (r3 + 1) * 100 + (r4 + 1) * 10 + (r5 + 1)))
        by (change (10 ^ (4 + 1)) with 100000; change (10 ^ 4) with 10000; ring).
      apply digit_at_decompose; change (10 ^ 4) with 10000; lia.
    - replace (((((0 * 10 + (r1 + 1)) * 10 + (r2 + 1)) * 10 + (r3 + 1)) * 10 + (r4 + 1)) * 10 + (r5 + 1))
        with ((r1 + 1) * 10 ^ (3 + 1) + (r2 + 1) * 10 ^ 3
              + ((r3 + 1) * 100 + (r4 + 1) * 10 + (r5 + 1)))
        by (change (10 ^ (3 + 1)) with 10000; change (10 ^ 3) with 1000; ring).
      apply digit_at_decompose; change (10 ^ 3) with 1000; lia.
    - replace (((((0 * 10 + (r1 + 1)) * 10 + (r2 + 1)) * 10 + (r3 + 1)) * 10 + (r4 + 1)) * 10 + (r5 + 1))
        with (((r1 + 1) * 10 + (r2 + 1)) * 10 ^ (2 + 1) + (r3 + 1) * 10 ^ 2
              + ((r4 + 1) * 10 + (r5 + 1)))
        by (change (10 ^ (2 + 1)) with 1000; change (10 ^ 2) with 100; ring).
      apply digit_at_decompose; change (10 ^ 2) with 100; lia.
    - replace (((((0 * 10 + (r1 + 1)) * 10 + (r2 + 1)) * 10 + (r3 + 1)) * 10 + (r4 + 1)) * 10 + (r5 + 1))
        with (((r1 + 1) * 100 + (r2 + 1) * 10 + (r3 + 1)) * 10 ^ (1 + 1)
              + (r4 + 1) * 10 ^ 1 + (r5 + 1))
        by (change (10 ^ (1 + 1)) with 100; change (10 ^ 1) with 10; ring).
      apply digit_at_decompose; change (10 ^ 1) with 10; lia.
    - replace (((((0 * 10 + (r1 + 1)) * 10 + (r2 + 1)) * 10 + (r3 + 1)) * 10 + (r4 + 1)) * 10 + (r5 + 1))
        with (((r1 + 1) * 1000 + (r2 + 1) * 100 + (r3 + 1) * 10 + (r4 + 1)) * 10 ^ (0 + 1)
              + (r5 + 1) * 10 ^ 0 + 0)
        by (change (10 ^ (0 + 1)) with 10; change (10 ^ 0) with 1; ring).
      apply digit_at_decompose; change (10 ^ 0) with 1; lia. }
  split; [|split; [|split]].
  - unfold generateDicewareNumber. change (Z.to_nat 5) with 5%nat.
    cbn [generate_loop]. rewrite H1. cbn [generate_loop].
    rewrite (int32_id (r1 + 1)) by lia.
    rewrite (int_id (0 * 10 + (r1 + 1))) by lia.
    rewrite H2. rewrite (int32_id (r2 + 1)) by lia.
    rewrite (int_id ((0 * 10 + (r1 + 1)) * 10 + (r2 + 1))) by lia.
    rewrite H3. rewrite (int32_id (r3 + 1)) by lia.
    rewrite (int_id (((0 * 10 + (r1 + 1)) * 10 + (r2 + 1)) * 10 + (r3 + 1))) by lia.
    rewrite H4. rewrite (int32_id (r4 + 1)) by lia.
    rewrite (int_id ((((0 * 10 + (r1 + 1)) * 10 + (r2 + 1)) * 10 + (r3 + 1)) * 10 + (r4 + 1))) by lia.
    rewrite H5. rewrite (int32_id (r5 + 1)) by lia.
    rewrite (int_id (((((0 * 10 + (r1 + 1)) * 10 + (r2 + 1)) * 10 + (r3 + 1)) * 10 + (r4 + 1)) * 10 + (r5 + 1))) by lia.
    reflexivity.
  - unfold compose_rolls. cbn [fold_left]. lia.
  - exact Hdigits.
  - intros i Hi.
    assert (Hcase : i = 4 - Z.of_nat 4 \/ i = 4 - Z.of_nat 3 \/ i = 4 - Z.of_nat 2
                    \/ i = 4 - Z.of_nat 1 \/ i = 4 - Z.of_nat 0) by lia.
    destruct Hcase as [-> | [-> | [-> | [-> | ->]]]];
      erewrite Hdigits by reflexivity; lia.
Qed.
End GeneratorFacts.

Lemma generateDicewareNumber_five_witness :
  generateDicewareNumber Tpm.secureRandInt 5
    [Tpm.Random 2; Tpm.Random 253; Tpm.Random 0; Tpm.Random 3; Tpm.Random 0;
     Tpm.Random 4; Tpm.Random 1] =
  Returns ((31415, None), [Tpm.Random 1]).
Proof.
  apply (proj1 (generateDicewareNumber_five Tpm.secureRandInt
                  [Tpm.Random 2; Tpm.Random 253; Tpm.Random 0; Tpm.Random 3;
                   Tpm.Random 0; Tpm.Random 4; Tpm.Random 1]
                  [2; 0; 3; 0; 4] [Tpm.Random 1]
                  ltac:(repeat (eapply draws_cons; [reflexivity|]); apply draws_nil)
                  ltac:(reflexivity)
                  ltac:(repeat constructor; lia))).
Defined.

Lemma generateDicewareNumber_first_error_witness :
  generateDicewareNumber CryptoRand.secureRandInt 5
    [CryptoRand.Read4 0 0 0 8; CryptoRand.Read4 255 255 255 255;
     CryptoRand.ReadErr "unexpected EOF"; CryptoRand.Read4 0 0 0 1] =
  Returns ((0, Some "failed to generate random number: unexpected EOF"),
           [CryptoRand.Read4 0 0 0 1]).
Proof.
  apply (generateDicewareNumber_first_error CryptoRand.secureRandInt 5
           [CryptoRand.Read4 0 0 0 8; CryptoRand.Read4 255 255 255 255;
            CryptoRand.ReadErr "unexpected EOF"; CryptoRand.Read4 0 0 0 1]
           [2; 1]
           [CryptoRand.ReadErr "unexpected EOF"; CryptoRand.Read4 0 0 0 1]
           0 "unexpected EOF" [CryptoRand.Read4 0 0 0 1]
           ltac:(repeat (eapply draws_cons; [reflexivity|]); apply draws_nil)
           ltac:(cbn; lia)
           ltac:(reflexivity)).
Defined.

(** ** The dictionary *)

Lemma add_line_entry dict line :
  add_line dict line =
  match entry_of line with
  | Some kw => insert_entry dict kw
  | None => dict
  end.
Proof.
  unfold add_line, entry_of.
  destruct (split_tab line) as [|p0 [|p1 ps]]; try reflexivity.
  destruct (sscanf_d p0); reflexivity.
Qed.

Lemma malformed_entry line : malformed line <-> entry_of line = None.
Proof.
  unfold malformed, entry_of.
  destruct (split_tab line) as [|p0 [|p1 ps]]; cbn [length hd].
  - split; [reflexivity|]. intros _. left. lia.
  - split; [reflexivity|]. intros _. left. lia.
  - destruct (sscanf_d p0) as [number|].
    + split; [|discriminate]. intros [H|H]; [lia|discriminate].
    + split; [reflexivity|]. intros _. right. reflexivity.
Qed.

Lemma add_line_malformed dict line : malformed line -> add_line dict line = dict.
Proof.
  intros H. rewrite add_line_entry.
  apply malformed_entry in H. rewrite H. reflexivity.
Qed.

Lemma fold_add_line_entries lines : forall dict,
  fold_left add_line lines dict =
  fold_left insert_entry (omap entry_of lines) dict.
Proof.
  induction lines as [|line lines IH]; intros dict; [reflexivity|].
  cbn [fold_left omap list_omap]. rewrite IH, add_line_entry.
  destruct (entry_of line); reflexivity.
Qed.

Lemma scan_loop_err raws : forall dict e,
  (scan_loop dict raws e).2 = scanner_err raws e.
Proof.
  induction raws as [|raw raws IH]; intros dict e; [reflexivity|].
  cbn [scan_loop scanner_err].
  destruct (maxScanTokenSize <=? len raw); [reflexivity|apply IH].
Qed.

Lemma scan_loop_dict raws : forall dict e,
  scanner_err raws e = None ->
  (scan_loop dict raws e).1 = fold_left add_line (map dropCR raws) dict.
Proof.
  induction raws as [|raw raws IH]; intros dict e; [reflexivity|].
  cbn [scan_loop scanner_err map fold_left].
  destruct (maxScanTokenSize <=? len raw); [discriminate|apply IH].
Qed.

Lemma fold_insert_entry_other es : forall (dict : gmap Z string) k,
  (forall kw, kw ∈ es -> kw.1 <> k) ->
  fold_left insert_entry es dict !! k = dict !! k.
Proof.
  induction es as [|kw es IH]; intros dict k Hk; [reflexivity|].
  cbn [fold_left]. rewrite IH.
  - unfold insert_entry. apply lookup_insert_ne. apply Hk. left.
  - intros kw' Hin. apply Hk. right. exact Hin.
Qed.

Lemma fold_insert_entry_last es1 k w es2 (dict : gmap Z string) :
  (forall kw, kw ∈ es2 -> kw.1 <> k) ->
  fold_left insert_entry (es1 ++ (k, w) :: es2) dict !! k = Some w.
Proof.
  intros Hk. rewrite fold_left_app. cbn [fold_left].
  rewrite fold_insert_entry_other by exact Hk.
  unfold insert_entry. cbn. apply lookup_insert_eq.
Qed.

Lemma fold_insert_entry_is_Some es : forall (dict : gmap Z string) k,
  is_Some (dict !! k) -> is_Some (fold_left insert_entry es dict !! k).
Proof.
  induction es as [|kw es IH]; intros dict k Hd; [exact Hd|].
  cbn [fold_left]. apply IH. unfold insert_entry.
  destruct (decide (kw.1 = k)) as [->|Hne].
  - rewrite lookup_insert_eq. eauto.
  - rewrite lookup_insert_ne by exact Hne. exact Hd.
Qed.

Lemma loadDictionary_opened fs filename f :
  fs filename = inr f ->
  loadDictionary fs filename =
  match scanner_err (raw_lines (content f)) (read_err f) with
  | Some e => (None, Some e)
  | None =>
      (Some (fold_left insert_entry (omap entry_of (lines_of (content f))) ∅),
       None)
  end.
Proof.
  intros Hf. unfold loadDictionary. rewrite Hf.
  pose proof (scan_loop_err (raw_lines (content f)) ∅ (read_err f)) as He.
  pose proof (scan_loop_dict (raw_lines (content f)) ∅ (read_err f)) as Hd.
  destruct (scan_loop ∅ (raw_lines (content f)) (read_err f)) as [d err].
  cbn [fst snd] in He, Hd. subst err.
  destruct (scanner_err (raw_lines (content f)) (read_err f)); [reflexivity|].
  rewrite Hd by reflexivity. rewrite fold_add_line_entries. reflexivity.
Qed.

(** *** Scanning the key *)

Lemma append_cons c s t : String c s +:+ t = String c (s +:+ t).
Proof. reflexivity. Qed.

Lemma append_empty_l t : "" +:+ t = t.
Proof. reflexivity. Qed.

Lemma decimal_byte c : is_decimal c = true -> 48 <= byte_of c <= 57.
Proof.
  unfold is_decimal, between. intros H.
  apply andb_true_iff in H as [H1 H2].
  apply Z.leb_le in H1. apply Z.leb_le in H2. lia.
Qed.

Lemma decimal_not_space b : 48 <= b <= 57 -> isSpace b = false.
Proof.
  intros Hb. unfold isSpace, between.
  repeat match goal with
         | |- context [?x <=? ?y] => destruct (Z.leb_spec x y); try lia
         | |- context [?x =? ?y] => destruct (Z.eqb_spec x y); try lia
         end;
    try reflexivity.
Qed.

Lemma decimal_not_tab c : is_decimal c = true -> Ascii.eqb c tab = false.
Proof.
  intros H. destruct (Ascii.eqb_spec c tab) as [->|]; [discriminate H|reflexivity].
Qed.

Lemma decimal_not_sign c : is_decimal c = true -> is_sign c = false.
Proof.
  intros H. unfold is_sign.
  destruct (Ascii.eqb_spec c "+"%char) as [->|]; [discriminate H|].
  destruct (Ascii.eqb_spec c "-"%char) as [->|]; [discriminate H|reflexivity].
Qed.

Lemma skipSpace_decimal c s :
  is_decimal c = true -> skipSpace (String c s) = Some (String c s).
Proof.
  intros H. apply decimal_byte in H.
  unfold skipSpace. cbn [String.length skipSpace_fuel decodeRune].
  destruct (Z.ltb_spec (byte_of c) 128); [|lia].
  destruct (Z.eqb_spec (byte_of c) (byte_of newline)) as [Heq|_].
  { change (byte_of newline) with 10 in Heq. lia. }
  rewrite decimal_not_space by exact H. reflexivity.
Qed.

Lemma parseDigits_take ds : forall acc v rest,
  parseDigits acc ds = Some v -> number_stop rest ->
  take_number (ds +:+ rest) = ds /\ has_tab ds = false.
Proof.
  induction ds as [|c ds IH]; intros acc v rest Hv Hstop.
  - split; [|reflexivity]. rewrite append_empty_l.
    destruct rest as [|c r]; [reflexivity|].
    cbn [number_stop] in Hstop. cbn [take_number]. rewrite Hstop. reflexivity.
  - cbn [parseDigits] in Hv. destruct (is_decimal c) eqn:Hc; [|discriminate].
    destruct (IH _ _ rest Hv Hstop) as [Htake Htab].
    rewrite append_cons. cbn [take_number has_tab]. unfold is_number_char.
    rewrite Hc, Htake, Htab, (decimal_not_tab c Hc). split; reflexivity.
Qed.

Lemma sscanf_d_prefix digits rest v :
  digits <> "" -> parseDigits 0 digits = Some v -> v < 2 ^ 63 ->
  number_stop rest ->
  sscanf_d (digits +:+ rest) = Some v.
Proof.
  intros Hne Hv Hrange Hstop.
  destruct (parseDigits_take digits 0 v rest Hv Hstop) as [Htake _].
  destruct digits as [|c ds]; [congruence|].
  assert (Hc : is_decimal c = true).
  { cbn [parseDigits] in Hv. destruct (is_decimal c); [reflexivity|discriminate]. }
  unfold sscanf_d. rewrite append_cons in Htake |- *.
  rewrite skipSpace_decimal by exact Hc.
  rewrite (decimal_not_sign c Hc).
  rewrite Htake.
  assert (Hminus : Ascii.eqb c "-"%char = false).
  { destruct (Ascii.eqb_spec c "-"%char) as [->|]; [discriminate Hc|reflexivity]. }
  rewrite Hminus. unfold parseInt. rewrite Hv.
  destruct (Z.ltb_spec v (2 ^ 63)); [reflexivity|lia].
Qed.

Lemma append_empty_r s : s +:+ "" = s.
Proof.
  induction s as [|c s IH]; [reflexivity|].
  rewrite append_cons, IH. reflexivity.
Qed.

Lemma has_tab_app a b : has_tab (a +:+ b) = has_tab a || has_tab b.
Proof.
  induction a as [|c a IH]; [reflexivity|].
  rewrite append_cons. cbn [has_tab]. rewrite IH. apply orb_assoc.
Qed.

Lemma split_tab_field a b :
  has_tab a = false -> split_tab (a +:+ String tab b) = a :: split_tab b.
Proof.
  induction a as [|c a IH]; intros Ha.
  - rewrite append_empty_l. cbn [split_tab]. rewrite Ascii.eqb_refl. reflexivity.
  - cbn [has_tab] in Ha. apply orb_false_iff in Ha as [Hc Ha].
    rewrite append_cons. cbn [split_tab]. rewrite Hc, (IH Ha). reflexivity.
Qed.

Lemma split_tab_last a : has_tab a = false -> split_tab a = [a].
Proof.
  induction a as [|c a IH]; intros Ha; [reflexivity|].
  cbn [has_tab] in Ha. apply orb_false_iff in Ha as [Hc Ha].
  cbn [split_tab]. rewrite Hc, (IH Ha). reflexivity.
Qed.

Example scan_samples :
  map sscanf_d ["123abc"; "123_abc"; " -7"; "+12x"; "+"; "x1"; "007";
                "9223372036854775807"; "9223372036854775808";
                "-9223372036854775808"; ""]
  = [Some 123; Some 123; Some (-7); Some 12; None; None; Some 7;
     Some 9223372036854775807; None; Some (-9223372036854775808); None].
Proof. vm_compute. reflexivity. Qed.

Example load_sample_file :
  let fs : filesystem := fun _ =>
    inr {| content :=
             "11111" +:+ String tab ("apple" +:+ nl
             +:+ "just one field" +:+ nl
             +:+ "x12" +:+ String tab ("pear" +:+ nl
             +:+ "123abc" +:+ String tab ("word" +:+ String tab ("extra"
             +:+ String carriage_return nl
             +:+ " 66666" +:+ String tab "zebra"))));
           read_err := None |} in
  match loadDictionary fs "words.txt" with
  | (Some d, None) =>
      (d !! 11111, d !! 123, d !! 66666, d !! 12, size d) =
      (Some "apple", Some "word", Some "zebra", None, 3%nat)
  | _ => False
  end.
Proof. vm_compute. reflexivity. Qed.

(** ** The program *)

Lemma found_words_cons dict n ns :
  found_words dict (n :: ns) = number_word dict n ++ found_words dict ns.
Proof.
  unfold found_words, number_word. destruct dict as [d|]; [|reflexivity].
  cbn [omap list_omap]. destruct (d !! n); reflexivity.
Qed.

Lemma number_output_not_passphrase dict i n line :
  line ∈ number_output dict i n -> ~ is_passphrase_line line.
Proof.
  intros Hin (sep & ws & ->). unfold number_output in Hin.
  apply elem_of_cons in Hin as [Hin|Hin].
  { cbv [passphrase_line nl String.append] in Hin. discriminate Hin. }
  apply elem_of_app in Hin as [Hin|Hin].
  - destruct dict as [d|]; [|inversion Hin].
    destruct (d !! n); apply list_elem_of_singleton in Hin;
      cbv [passphrase_line nl String.append] in Hin; discriminate Hin.
  - apply list_elem_of_singleton in Hin.
    cbv [passphrase_line nl String.append] in Hin. discriminate Hin.
Qed.

Lemma numbers_output_not_passphrase dict ns : forall i line,
  line ∈ numbers_output dict i ns -> ~ is_passphrase_line line.
Proof.
  induction ns as [|n ns IH]; intros i line Hin; [inversion Hin|].
  cbn [numbers_output] in Hin. apply elem_of_app in Hin as [Hin|Hin].
  - exact (number_output_not_passphrase dict i n line Hin).
  - exact (IH _ _ Hin).
Qed.

Section ProgramFacts.
Context {Src : Type}.
Variable sampler : Z -> Src -> outcome ((Z * error) * Src).

Lemma number_loop_generates dict s ns s1 :
  generates sampler s ns s1 ->
  forall m i words out,
    number_loop sampler dict (length ns + m) i s words out =
    number_loop sampler dict m (i + Z.of_nat (length ns)) s1
      (words ++ found_words dict ns) (out ++ numbers_output dict i ns).
Proof.
  induction 1 as [s|s n s1 ns s2 Hn _ IH]; intros m i words out.
  - cbn [length Nat.add numbers_output]. unfold found_words.
    destruct dict; cbn [omap list_omap]; rewrite !app_nil_r;
      rewrite Z.add_0_r; reflexivity.
  - cbn [length Nat.add number_loop]. rewrite Hn. rewrite IH.
    rewrite found_words_cons. cbn [numbers_output].
    rewrite <- !app_assoc. f_equal. lia.
Qed.

(** A run in which every number is generated. *)
Lemma generate_and_print_completes fl e sep dict s ns s1 :
  flag_dictionary fl e = (dict, None) ->
  generates sampler s ns s1 ->
  Z.of_nat (length ns) = rolls fl ->
  generate_and_print sampler fl e sep s =
  {| stdout :=
       numbers_output dict 0 ns ++
       (if showPassphrase fl && (0 <? Z.of_nat (length (found_words dict ns)))
        then [passphrase_line sep (found_words dict ns)] else []);
     stderr := [];
     exit_status := Exit 0 |}.
Proof.
  intros Hdict Hgen Hlen. unfold generate_and_print. rewrite Hdict.
  replace (Z.to_nat (rolls fl)) with (length ns + 0)%nat by lia.
  rewrite (number_loop_generates dict s ns s1 Hgen).
  cbn [number_loop app]. reflexivity.
Qed.

(** A run in which the entropy source fails: the numbers generated so
    far have been printed, the error goes to standard error and the
    exit status is 1. *)
Lemma generate_and_print_fatal fl e sep dict s ns s1 v err s2 :
  flag_dictionary fl e = (dict, None) ->
  generates sampler s ns s1 ->
  Z.of_nat (length ns) < rolls fl ->
  generateDicewareNumber sampler 5 s1 = Returns ((v, Some err), s2) ->
  generate_and_print sampler fl e sep s =
  {| stdout := numbers_output dict 0 ns;
     stderr := ["Error generating Diceware number: " +:+ err +:+ nl];
     exit_status := Exit 1 |}.
Proof.
  intros Hdict Hgen Hlen Herr. unfold generate_and_print. rewrite Hdict.
  replace (Z.to_nat (rolls fl))
    with (length ns + S (Z.to_nat (rolls fl) - S (length ns)))%nat by lia.
  rewrite (number_loop_generates dict s ns s1 Hgen).
  cbn [number_loop app]. rewrite Herr. reflexivity.
Qed.

Lemma passphrase_printed_iff fl e sep dict s ns s1 :
  flag_dictionary fl e = (dict, None) ->
  generates sampler s ns s1 ->
  Z.of_nat (length ns) = rolls fl ->
  let r := generate_and_print sampler fl e sep s in
  let words := found_words dict ns in
  stdout r =
    numbers_output dict 0 ns ++
    (if showPassphrase fl && bool_decide (words <> [])
     then [passphrase_line sep words] else []) /\
  ((exists line, is_passphrase_line line /\ line ∈ stdout r) <->
   showPassphrase fl = true /\ words <> []) /\
  (forall line, is_passphrase_line line -> line ∈ stdout r ->
                line = passphrase_line sep words).
Proof.
  intros Hdict Hgen Hlen r words.
  assert (Hr : stdout r =
    numbers_output dict 0 ns ++
    (if showPassphrase fl && bool_decide (words <> [])
     then [passphrase_line sep words] else [])).
  { unfold r. rewrite (generate_and_print_completes fl e sep dict s ns s1)
      by assumption.
    cbn [stdout]. fold words. f_equal.
    destruct words; reflexivity. }
  split; [exact Hr|]. rewrite Hr. split.
  - split.
    + intros (line & Hline & Hin). apply elem_of_app in Hin as [Hin|Hin].
      { destruct (numbers_output_not_passphrase _ _ _ _ Hin Hline). }
      destruct (showPassphrase fl); [|inversion Hin].
      destruct (bool_decide_reflect (words <> [])) as [Hw|]; [|inversion Hin].
      split; [reflexivity|exact Hw].
    + intros [Hp Hw]. exists (passphrase_line sep words). split.
      { exists sep, words. reflexivity. }
      apply elem_of_app. right. rewrite Hp.
      rewrite bool_decide_true by exact Hw. cbn. left.
  - intros line Hline Hin. apply elem_of_app in Hin as [Hin|Hin].
    { destruct (numbers_output_not_passphrase _ _ _ _ Hin Hline). }
    destruct (showPassphrase fl && bool_decide (words <> [])); [|inversion Hin].
    apply list_elem_of_singleton in Hin. exact Hin.
Qed.
End ProgramFacts.

Lemma cryptorand_main_generates fl e s :
  1 <= rolls fl ->
  CryptoRand.main fl e s = generate_and_print CryptoRand.secureRandInt fl e " " s.
Proof.
  intros Hrolls. unfold CryptoRand.main.
  destruct (Z.ltb_spec (rolls fl) 1); [lia|reflexivity].
Qed.

Lemma tpm_main_generates fl e rwc :
  1 <= rolls fl ->
  Tpm.main fl e (inr rwc) =
  generate_and_print Tpm.secureRandInt fl e (separator fl) rwc.
Proof.
  intros Hrolls. unfold Tpm.main.
  destruct (Z.ltb_spec (rolls fl) 1); [lia|reflexivity].
Qed.

(** C3. A failure of the entropy source is to end the run with a message
    on standard error and a non-zero exit status. When the TPM handle
    cannot be opened, the TPM variant prints its message and returns from
    [main]: the run ends with status 0. *)
Theorem tpm_open_failure_exits_zero fl e err :
  1 <= rolls fl ->
  Tpm.main fl e (inl err) =
  {| stdout := [];
     stderr := ["Failed to open TPM: " +:+ err +:+ nl];
     exit_status := Exit 0 |}.
Proof.
  intros Hrolls. unfold Tpm.main.
  destruct (Z.ltb_spec (rolls fl) 1); [lia|reflexivity].
Qed.

Lemma tpm_open_failure_exits_zero_witness :
  exit_status
    (Tpm.main
       {| rolls := 10; dictFile := ""; showPassphrase := false; separator := " " |}
       {| prog := "dwp"; flag_defaults := ""; files := fun _ => inl "no such file" |}
       (inl "open /dev/tpmrm0: no such file or directory")) = Exit 0.
Proof.
  rewrite (tpm_open_failure_exits_zero
             {| rolls := 10; dictFile := ""; showPassphrase := false; separator := " " |}
             {| prog := "dwp"; flag_defaults := ""; files := fun _ => inl "no such file" |}
             "open /dev/tpmrm0: no such file or directory" ltac:(cbn; lia)).
  reflexivity.
Defined.

(** X23. The other failures of the entropy source are fatal with status 1,
    in both variants: a failed read stops the run after the numbers already
    printed, with the wrapped error on standard error. *)
Lemma read_failure_exits_one fl e dict ns v err :
  1 <= rolls fl ->
  flag_dictionary fl e = (dict, None) ->
  Z.of_nat (length ns) < rolls fl ->
  (forall s s1 s2,
      generates CryptoRand.secureRandInt s ns s1 ->
      generateDicewareNumber CryptoRand.secureRandInt 5 s1 =
        Returns ((v, Some err), s2) ->
      CryptoRand.main fl e s =
      {| stdout := numbers_output dict 0 ns;
         stderr := ["Error generating Diceware number: " +:+ err +:+ nl];
         exit_status := Exit 1 |}) /\
  (forall rwc s1 s2,
      generates Tpm.secureRandInt rwc ns s1 ->
      generateDicewareNumber Tpm.secureRandInt 5 s1 =
        Returns ((v, Some err), s2) ->
      Tpm.main fl e (inr rwc) =
      {| stdout := numbers_output dict 0 ns;
         stderr := ["Error generating Diceware number: " +:+ err +:+ nl];
         exit_status := Exit 1 |}).
Proof.
  intros Hrolls Hdict Hlen. split.
  - intros s s1 s2 Hgen Herr. rewrite cryptorand_main_generates by exact Hrolls.
    exact (generate_and_print_fatal _ fl e " " dict s ns s1 v err s2
             Hdict Hgen Hlen Herr).
  - intros rwc s1 s2 Hgen Herr. rewrite tpm_main_generates by exact Hrolls.
    exact (generate_and_print_fatal _ fl e (separator fl) dict rwc ns s1 v err s2
             Hdict Hgen Hlen Herr).
Qed.

(** ** Runs on concrete inputs *)

Example run_one_roll_no_dictionary :
  CryptoRand.main
    {| rolls := 1; dictFile := ""; showPassphrase := true; separator := "" |}
    {| prog := "dwp"; flag_defaults := ""; files := fun _ => inl "no such file" |}
    [CryptoRand.Read4 0 0 0 2; CryptoRand.Read4 128 0 0 0;
     CryptoRand.Read4 255 255 255 255; CryptoRand.Read4 0 0 1 0;
     CryptoRand.Read4 0 0 0 5]
  = {| stdout := ["Diceware number 1: 31256"; nl]; stderr := [];
       exit_status := Exit 0 |}.
Proof. vm_compute. reflexivity. Qed.

Example run_empty_tpm_reply :
  Tpm.secureRandInt 6 [Tpm.Random 254; Tpm.NoBytes; Tpm.Random 1] =
  Panics "runtime error: index out of range [0] with length 0".
Proof. reflexivity. Qed.

Example run_zero_rolls :
  exit_status
    (Tpm.main
       {| rolls := 0; dictFile := ""; showPassphrase := false; separator := " " |}
       {| prog := "dwp"; flag_defaults := ""; files := fun _ => inl "no such file" |}
       (inr [])) = Exit 1.
Proof. reflexivity. Qed.

Example run_read_failure_after_hit :
  Tpm.main
    {| rolls := 2; dictFile := "words.txt"; showPassphrase := true;
       separator := " " |}
    {| prog := "dwp"; flag_defaults := "";
       files := fun _ =>
         inr {| content := "11111" +:+ String tab ("apple" +:+ nl);
                read_err := None |} |}
    (inr [Tpm.Random 0; Tpm.Random 6; Tpm.Random 12; Tpm.Random 18; Tpm.Random 24;
          Tpm.Random 255; Tpm.GetRandomErr "tpm: transmit failed"])
  = {| stdout := ["Diceware number 1: 11111"; " - apple"; nl];
       stderr := ["Error generating Diceware number: " +:+
                  "failed to generate random number: tpm: transmit failed" +:+ nl];
       exit_status := Exit 1 |}.
Proof. vm_compute. reflexivity. Qed.

(** * Further properties of the code *)

(** ** Samplers *)

(** X1. The TPM sampler is free of modulo bias for every bound it can
    take: each output in [[0, max)] has the same number of accepted bytes,
    [255 / max], which is at least one. *)
Theorem tpm_sampler_uniform max :
  1 <= max <= 255 ->
  evenly_spread (Tpm.accepted_preimages max) max /\
  (forall v, 0 <= v < max -> Tpm.accepted_preimages max v = 255 / max) /\
  1 <= 255 / max.
Proof.
  intros Hmax. split; [|split].
  - intros v1 v2 H1 H2.
    rewrite (accepted_preimages_uniform max v1 Hmax H1).
    rewrite (accepted_preimages_uniform max v2 Hmax H2). reflexivity.
  - intros v Hv. apply accepted_preimages_uniform; assumption.
  - apply Z.div_le_lower_bound; lia.
Qed.

Lemma tpm_sampler_uniform_witness :
  Tpm.accepted_preimages 6 3 = 255 / 6.
Proof.
  apply (proj1 (proj2 (tpm_sampler_uniform 6 ltac:(lia))) 3). lia.
Defined.

(** X2. The masked-modulo sampler of the crypto/rand variant spreads the
    [2^32] words evenly over the outputs exactly when [max] divides
    [2^31]; for any other bound the outputs below [2^31 mod max] get two
    words more than the others. *)
Theorem cryptorand_sampler_uniform_iff max :
  0 < max < 2 ^ 31 ->
  (evenly_spread (CryptoRand.raw_preimages max) max <-> 2 ^ 31 mod max = 0) /\
  (forall v, 0 <= v < max ->
             CryptoRand.raw_preimages max v =
             2 * (2 ^ 31 / max) + (if v <? 2 ^ 31 mod max then 2 else 0)).
Proof.
  intros Hmax.
  assert (Hclosed : forall v, 0 <= v < max ->
             CryptoRand.raw_preimages max v =
             2 * (2 ^ 31 / max) + (if v <? 2 ^ 31 mod max then 2 else 0)).
  { intros v Hv. rewrite raw_preimages_closed by exact Hv.
    destruct (v <? 2 ^ 31 mod max); lia. }
  split; [|exact Hclosed].
  pose proof (Z.mod_pos_bound (2 ^ 31) max ltac:(lia)) as Hr.
  split.
  - intros Heven.
    specialize (Heven 0 (max - 1) ltac:(lia) ltac:(lia)).
    rewrite (Hclosed 0), (Hclosed (max - 1)) in Heven by lia.
    destruct (Z.ltb_spec 0 (2 ^ 31 mod max)),
      (Z.ltb_spec (max - 1) (2 ^ 31 mod max)); lia.
  - intros Hzero v1 v2 H1 H2. rewrite (Hclosed v1 H1), (Hclosed v2 H2).
    rewrite Hzero.
    destruct (Z.ltb_spec v1 0), (Z.ltb_spec v2 0); lia.
Qed.

Lemma cryptorand_sampler_uniform_iff_witness :
  evenly_spread (CryptoRand.raw_preimages 8) 8.
Proof.
  apply (proj1 (cryptorand_sampler_uniform_iff 8 ltac:(lia))). reflexivity.
Defined.

(** X3. For a bound that is not zero the crypto/rand sampler returns a
    value that is never negative and is below the magnitude of the bound,
    whatever the four bytes; it uses one read. *)
Theorem cryptorand_sampler_range max b0 b1 b2 b3 s :
  max <> 0 ->
  exists v,
    CryptoRand.secureRandInt max (CryptoRand.Read4 b0 b1 b2 b3 :: s) =
      Returns ((v, None), s) /\
    0 <= v < Z.abs max.
Proof.
  intros Hmax. unfold CryptoRand.secureRandInt.
  destruct (Z.eqb_spec max 0) as [|_]; [contradiction|].
  eexists. split; [reflexivity|].
  unfold CryptoRand.sample_word. change 0x7FFFFFFF with (Z.ones 31).
  rewrite Z.land_ones by lia.
  pose proof (Z.mod_pos_bound (int32 (CryptoRand.be_uint32 b0 b1 b2 b3))
                (2 ^ 31) ltac:(lia)) as Hm.
  set (m := int32 (CryptoRand.be_uint32 b0 b1 b2 b3) mod 2 ^ 31) in *.
  rewrite <- Z.rem_abs_r by exact Hmax.
  apply Z.rem_bound_pos; lia.
Qed.

Lemma cryptorand_sampler_range_witness :
  exists v,
    CryptoRand.secureRandInt (-6) [CryptoRand.Read4 255 255 255 255] =
      Returns ((v, None), []) /\
    0 <= v < Z.abs (-6).
Proof.
  apply (cryptorand_sampler_range (-6) 255 255 255 255 []). discriminate.
Defined.

Lemma classify_truncates max k b :
  Tpm.classify (max + 256 * k) b = Tpm.classify max b.
Proof.
  unfold Tpm.classify, Tpm.maxValid, uint8.
  replace (max + 256 * k) with (max + k * 256) by ring.
  rewrite Z.mod_add by lia. reflexivity.
Qed.

(** X4. The TPM sampler converts its bound to eight bits: bounds that
    differ by a multiple of 256 give the same behaviour on every reply
    script, so a bound of 262 samples from [[0, 6)]. *)
Theorem tpm_sampler_truncates_bound max k s :
  Tpm.secureRandInt (max + 256 * k) s = Tpm.secureRandInt max s.
Proof.
  unfold Tpm.secureRandInt.
  assert (Hu : uint8 (max + 256 * k) = uint8 max).
  { unfold uint8. replace (max + 256 * k) with (max + k * 256) by ring.
    apply Z.mod_add. lia. }
  rewrite Hu. destruct (uint8 max =? 0); [reflexivity|].
  induction s as [|[b|e|] s IH]; cbn [Tpm.rejection_loop]; try reflexivity.
  rewrite classify_truncates. destruct (Tpm.classify max b); [exact IH|reflexivity].
Qed.

Lemma rejection_loop_rejected max pre s :
  1 <= max <= 255 ->
  Forall (fun x => 255 - 255 mod max <= x <= 255) pre ->
  Tpm.rejection_loop max (map Tpm.Random pre ++ s) = Tpm.rejection_loop max s.
Proof.
  intros Hmax Hpre.
  assert (HM : Tpm.maxValid max = 255 - 255 mod max).
  { rewrite maxValid_multiple by exact Hmax.
    pose proof (Z.div_mod 255 max ltac:(lia)). lia. }
  pose proof (maxValid_range max Hmax) as HR.
  induction Hpre as [|x pre Hx Hpre IH]; cbn [map app Tpm.rejection_loop].
  - reflexivity.
  - rewrite classify_spec by lia. rewrite HM.
    destruct (Z.leb_spec (255 - 255 mod max) x); [exact IH|lia].
Qed.

Lemma tpm_nonzero_bound max : 1 <= max <= 255 -> (uint8 max =? 0) = false.
Proof.
  intros Hmax. unfold uint8. rewrite Z.mod_small by lia.
  apply Z.eqb_neq. lia.
Qed.

(** X5. When the TPM fails after any number of rejected bytes, the
    sampler stops there: it returns 0 with the module's error and leaves
    the later replies unread. *)
Theorem tpm_sampler_error_after_rejections max pre e rest :
  1 <= max <= 255 ->
  Forall (fun x => 255 - 255 mod max <= x <= 255) pre ->
  Tpm.secureRandInt max (map Tpm.Random pre ++ Tpm.GetRandomErr e :: rest) =
  Returns ((0, Some e), rest).
Proof.
  intros Hmax Hpre. unfold Tpm.secureRandInt.
  rewrite tpm_nonzero_bound by exact Hmax.
  rewrite rejection_loop_rejected by assumption. reflexivity.
Qed.

Lemma tpm_sampler_error_after_rejections_witness :
  Tpm.secureRandInt 6 (map Tpm.Random [252; 255] ++
                       Tpm.GetRandomErr "transmit failed" :: [Tpm.Random 1]) =
  Returns ((0, Some "transmit failed"), [Tpm.Random 1]).
Proof.
  apply (tpm_sampler_error_after_rejections 6 [252; 255]).
  - lia.
  - repeat constructor; vm_compute; discriminate.
Defined.

(** X6. Rejected bytes alone never make the TPM sampler return: there is
    no bound on the retries, and after any run of rejected bytes the call
    is still asking for the next one. *)
Theorem tpm_sampler_keeps_retrying max pre :
  1 <= max <= 255 ->
  Forall (fun x => 255 - 255 mod max <= x <= 255) pre ->
  Tpm.secureRandInt max (map Tpm.Random pre) = Blocked.
Proof.
  intros Hmax Hpre. unfold Tpm.secureRandInt.
  rewrite tpm_nonzero_bound by exact Hmax.
  rewrite <- (app_nil_r (map Tpm.Random pre)).
  rewrite rejection_loop_rejected by assumption. reflexivity.
Qed.

Lemma tpm_sampler_keeps_retrying_witness :
  Tpm.secureRandInt 6 (map Tpm.Random [255; 254; 253; 252]) = Blocked.
Proof.
  apply (tpm_sampler_keeps_retrying 6 [255; 254; 253; 252]).
  - lia.
  - repeat constructor; vm_compute; discriminate.
Defined.

(** ** The generator, for any number of dice *)

Lemma compose_rolls_snoc rs r :
  compose_rolls (rs ++ [r]) = compose_rolls rs * 10 + (r + 1).
Proof. unfold compose_rolls. rewrite fold_left_app. reflexivity. Qed.

Lemma digit_at_units x d : 0 <= d < 10 -> digit_at (x * 10 + d) 0 = d.
Proof.
  intros Hd. unfold digit_at. change (10 ^ 0) with 1. rewrite Z.div_1_r.
  symmetry. apply (Z.mod_unique_pos _ _ x); lia.
Qed.

Lemma digit_at_shift x d j :
  0 <= j -> 0 <= d < 10 -> digit_at (x * 10 + d) (j + 1) = digit_at x j.
Proof.
  intros Hj Hd. unfold digit_at.
  rewrite Z.pow_add_r by lia. change (10 ^ 1) with 10.
  rewrite (Z.mul_comm (10 ^ j) 10).
  rewrite <- Z.div_div by (try lia; apply Z.pow_pos_nonneg; lia).
  replace ((x * 10 + d) / 10) with x; [reflexivity|].
  apply (Z.div_unique_pos _ _ _ d); lia.
Qed.

Lemma compose_rolls_digits rs :
  Forall (fun r => 0 <= r < 6) rs ->
  forall i r, rs !! i = Some r ->
    digit_at (compose_rolls rs) (Z.of_nat (length rs - 1 - i)) = r + 1.
Proof.
  induction rs as [|r0 rs IH] using rev_ind; intros Hrs i r Hi.
  - discriminate Hi.
  - apply Forall_app in Hrs as [Hrs Hr0]. inversion Hr0 as [|? ? Hr0' _]; subst.
    rewrite compose_rolls_snoc, length_app. cbn [length].
    destruct (decide (i < length rs)%nat) as [Hlt|Hge].
    + rewrite lookup_app_l in Hi by exact Hlt.
      replace (Z.of_nat (length rs + 1 - 1 - i))
        with (Z.of_nat (length rs - 1 - i) + 1) by lia.
      rewrite digit_at_shift by lia. apply IH; assumption.
    + rewrite lookup_app_r in Hi by lia.
      destruct (i - length rs)%nat as [|j] eqn:Hj; [|destruct j; discriminate Hi].
      injection Hi as <-.
      replace (length rs + 1 - 1 - i)%nat with 0%nat by lia.
      apply digit_at_units. lia.
Qed.

Lemma compose_rolls_bounds rs :
  Forall (fun r => 0 <= r < 6) rs ->
  0 <= compose_rolls rs < 10 ^ Z.of_nat (length rs).
Proof.
  induction rs as [|r0 rs IH] using rev_ind; intros Hrs.
  - cbn. lia.
  - apply Forall_app in Hrs as [Hrs Hr0]. inversion Hr0 as [|? ? Hr0' _]; subst.
    specialize (IH Hrs).
    rewrite compose_rolls_snoc, length_app. cbn [length].
    replace (Z.of_nat (length rs + 1)) with (Z.of_nat (length rs) + 1) by lia.
    rewrite Z.pow_add_r by lia. lia.
Qed.

Section GeneratorAnyDice.
Context {Src : Type}.
Variable sampler : Z -> Src -> outcome ((Z * error) * Src).

Lemma generate_loop_compose s rs s1 :
  draws sampler s rs s1 ->
  Forall (fun r => 0 <= r < 6) rs ->
  forall pre,
    Forall (fun r => 0 <= r < 6) pre ->
    (length pre + length rs <= 18)%nat ->
    generate_loop sampler (length rs) (compose_rolls pre) s =
    Returns ((compose_rolls (pre ++ rs), None), s1).
Proof.
  induction 1 as [s|s r s1 rs s2 Hr _ IH]; intros Hrs pre Hpre Hlen.
  - rewrite app_nil_r. reflexivity.
  - inversion Hrs as [|? ? Hr0 Hrs']; subst. cbn [length] in Hlen.
    cbn [length generate_loop]. rewrite Hr.
    rewrite int32_id by lia.
    pose proof (compose_rolls_bounds pre Hpre) as Hb.
    assert (Hpow : 10 ^ Z.of_nat (length pre) <= 10 ^ 17).
    { apply Z.pow_le_mono_r; lia. }
    rewrite int_id by lia.
    rewrite <- compose_rolls_snoc.
    rewrite IH.
    + rewrite <- app_assoc. reflexivity.
    + exact Hrs'.
    + apply Forall_app. split; [exact Hpre|]. constructor; [exact Hr0|constructor].
    + rewrite length_app. cbn [length]. lia.
Qed.

(** X7. For any number of dice up to 18 (beyond which the decimal number
    no longer fits 64 bits), successful draws in [[0, 6)] make
    [generateDicewareNumber] return the accumulated number, which has one
    decimal digit per die, the roll plus one, the first roll leftmost, and
    leave the source as the last draw left it. *)
Theorem generateDicewareNumber_any_dice s rs s1 :
  draws sampler s rs s1 ->
  Forall (fun r => 0 <= r < 6) rs ->
  (length rs <= 18)%nat ->
  generateDicewareNumber sampler (Z.of_nat (length rs)) s =
    Returns ((compose_rolls rs, None), s1) /\
  0 <= compose_rolls rs < 10 ^ Z.of_nat (length rs) /\
  (forall i r, rs !! i = Some r ->
     digit_at (compose_rolls rs) (Z.of_nat (length rs - 1 - i)) = r + 1).
Proof.
  intros Hdraws Hrs Hlen. split; [|split].
  - unfold generateDicewareNumber. rewrite Nat2Z.id.
    exact (generate_loop_compose s rs s1 Hdraws Hrs [] ltac:(constructor)
             ltac:(cbn [length]; lia)).
  - apply compose_rolls_bounds. exact Hrs.
  - apply compose_rolls_digits. exact Hrs.
Qed.

(** The state of the source may have to satisfy an invariant for the
    sampler to stay in range; the sampler keeps it. *)
Variable Inv : Src -> Prop.
Hypothesis sampler_in_range :
  forall s v s', Inv s -> sampler 6 s = Returns ((v, None), s') ->
                 0 <= v < 6 /\ Inv s'.

Lemma generate_loop_inversion k : forall acc s n s1,
  Inv s ->
  generate_loop sampler k acc s = Returns ((n, None), s1) ->
  exists rs, draws sampler s rs s1 /\ length rs = k /\
             Forall (fun r => 0 <= r < 6) rs /\ Inv s1.
Proof.
  induction k as [|k IH]; intros acc s n s1 Hinv Hrun.
  - cbn [generate_loop] in Hrun. injection Hrun as _ <-.
    exists []. repeat split; [constructor|constructor|exact Hinv].
  - cbn [generate_loop] in Hrun.
    destruct (sampler 6 s) as [[[v [e|]] s']| |] eqn:Hs; try discriminate Hrun.
    destruct (sampler_in_range s v s' Hinv Hs) as [Hv Hinv'].
    destruct (IH _ _ _ _ Hinv' Hrun) as (rs & Hd & Hl & Hr & Hi).
    exists (v :: rs). repeat split.
    + econstructor; eassumption.
    + cbn [length]. lia.
    + constructor; assumption.
    + exact Hi.
Qed.

Lemma generate_five_in_range s n s1 :
  Inv s ->
  generateDicewareNumber sampler 5 s = Returns ((n, None), s1) ->
  Inv s1 /\ 11111 <= n <= 66666 /\
  (forall i, 0 <= i < 5 -> 1 <= digit_at n i <= 6).
Proof.
  intros Hinv Hrun. unfold generateDicewareNumber in Hrun.
  destruct (generate_loop_inversion _ _ _ _ _ Hinv Hrun)
    as (rs & Hd & Hl & Hr & Hi).
  change (Z.to_nat 5) with 5%nat in Hrun, Hl.
  pose proof (generate_loop_compose s rs s1 Hd Hr [] ltac:(constructor)
                ltac:(cbn [length]; lia)) as Hc.
  rewrite Hl in Hc. change (compose_rolls []) with 0 in Hc.
  rewrite Hrun in Hc. injection Hc as ->. cbn [app].
  split; [exact Hi|].
  pose proof (compose_rolls_digits rs Hr) as Hdig.
  destruct rs as [|r1 [|r2 [|r3 [|r4 [|r5 [|]]]]]]; try discriminate Hl.
  repeat match goal with
         | H : Forall _ (_ :: _) |- _ => inversion H; subst; clear H
         end.
  split.
  - unfold compose_rolls. cbn [fold_left]. lia.
  - intros i Hi5.
    assert (Hcase : i = Z.of_nat (5 - 1 - 4) \/ i = Z.of_nat (5 - 1 - 3)
                    \/ i = Z.of_nat (5 - 1 - 2) \/ i = Z.of_nat (5 - 1 - 1)
                    \/ i = Z.of_nat (5 - 1 - 0)) by lia.
    cbn [length] in Hdig.
    destruct Hcase as [-> | [-> | [-> | [-> | ->]]]];
      erewrite Hdig by reflexivity; lia.
Qed.
End GeneratorAnyDice.

Lemma generateDicewareNumber_any_dice_witness :
  generateDicewareNumber Tpm.secureRandInt (Z.of_nat (length [5; 0; 2]))
    [Tpm.Random 5; Tpm.Random 6; Tpm.Random 254; Tpm.Random 8; Tpm.Random 9] =
  Returns ((compose_rolls [5; 0; 2], None), [Tpm.Random 9]).
Proof.
  apply (proj1 (generateDicewareNumber_any_dice Tpm.secureRandInt
                  [Tpm.Random 5; Tpm.Random 6; Tpm.Random 254; Tpm.Random 8;
                   Tpm.Random 9]
                  [5; 0; 2] [Tpm.Random 9]
                  ltac:(repeat (eapply draws_cons; [reflexivity|]); apply draws_nil)
                  ltac:(repeat constructor; lia)
                  ltac:(cbn; lia))).
Defined.

Lemma rejection_loop_keeps_bytes max s v e s' :
  Forall Tpm.byte_reply s ->
  Tpm.rejection_loop max s = Returns ((v, e), s') ->
  Forall Tpm.byte_reply s'.
Proof.
  intros Hs. induction Hs as [|r s Hr Hs IH]; cbn [Tpm.rejection_loop].
  - discriminate.
  - destruct r as [b|msg|].
    + destruct (Tpm.classify max b); [exact IH|].
      intros [= _ _ <-]. exact Hs.
    + intros [= _ _ <-]. exact Hs.
    + discriminate.
Qed.

Lemma tpm_sampler_invariant s v s' :
  Forall Tpm.byte_reply s ->
  Tpm.secureRandInt 6 s = Returns ((v, None), s') ->
  0 <= v < 6 /\ Forall Tpm.byte_reply s'.
Proof.
  intros Hs Hrun. split.
  - exact (tpm_secureRandInt_range 6 s v None s' ltac:(lia) Hs Hrun).
  - unfold Tpm.secureRandInt in Hrun.
    destruct (uint8 6 =? 0); [discriminate Hrun|].
    exact (rejection_loop_keeps_bytes 6 s v None s' Hs Hrun).
Qed.

Lemma cryptorand_sampler_invariant (s : CryptoRand.source) v s' :
  True ->
  CryptoRand.secureRandInt 6 s = Returns ((v, None), s') ->
  0 <= v < 6 /\ True.
Proof.
  intros _ Hrun. split; [|exact I].
  exact (cryptorand_secureRandInt_range 6 s v None s' ltac:(lia) Hrun).
Qed.

(** X8. Whatever the entropy source delivers, a number that
    [generateDicewareNumber] returns without error lies in
    [[11111, 66666]] and each of its five decimal digits is in 1..6, in
    both variants. *)
Theorem generated_numbers_in_range :
  (forall s n s1,
      generateDicewareNumber CryptoRand.secureRandInt 5 s =
        Returns ((n, None), s1) ->
      11111 <= n <= 66666 /\
      (forall i, 0 <= i < 5 -> 1 <= digit_at n i <= 6)) /\
  (forall rwc n s1,
      Forall Tpm.byte_reply rwc ->
      generateDicewareNumber Tpm.secureRandInt 5 rwc =
        Returns ((n, None), s1) ->
      11111 <= n <= 66666 /\
      (forall i, 0 <= i < 5 -> 1 <= digit_at n i <= 6)).
Proof.
  split.
  - intros s n s1 Hrun.
    exact (proj2 (generate_five_in_range CryptoRand.secureRandInt
                    (fun _ => True) cryptorand_sampler_invariant s n s1 I Hrun)).
  - intros rwc n s1 Hbytes Hrun.
    exact (proj2 (generate_five_in_range Tpm.secureRandInt
                    (Forall Tpm.byte_reply) tpm_sampler_invariant rwc n s1
                    Hbytes Hrun)).
Qed.

Lemma generated_numbers_in_range_witness :
  11111 <= 31256 <= 66666 /\
  (forall i, 0 <= i < 5 -> 1 <= digit_at 31256 i <= 6).
Proof.
  apply (proj1 generated_numbers_in_range
           [CryptoRand.Read4 0 0 0 2; CryptoRand.Read4 128 0 0 0;
            CryptoRand.Read4 255 255 255 255; CryptoRand.Read4 0 0 1 0;
            CryptoRand.Read4 0 0 0 5] 31256 []).
  vm_compute. reflexivity.
Defined.

Lemma draws_delivered reads rest :
  Forall delivered reads ->
  draws CryptoRand.secureRandInt (reads ++ rest) (map (roll_of_read 6) reads) rest
  /\ Forall (fun r => 0 <= r < 6) (map (roll_of_read 6) reads).
Proof.
  induction 1 as [|r reads Hr _ [IHd IHr]]; cbn [map app].
  - split; constructor.
  - destruct r as [b0 b1 b2 b3|e]; [|destruct Hr]. split.
    + econstructor; [reflexivity|exact IHd].
    + constructor; [|exact IHr]. cbn [roll_of_read].
      apply sample_word_range. lia.
Qed.

Lemma cryptorand_generate_delivered reads rest :
  Forall delivered reads -> (length reads <= 18)%nat ->
  generateDicewareNumber CryptoRand.secureRandInt (Z.of_nat (length reads))
    (reads ++ rest) =
  Returns ((compose_rolls (map (roll_of_read 6) reads), None), rest).
Proof.
  intros Hreads Hlen.
  destruct (draws_delivered reads rest Hreads) as [Hd Hr].
  unfold generateDicewareNumber. rewrite Nat2Z.id.
  rewrite <- (length_map (roll_of_read 6) reads).
  exact (generate_loop_compose CryptoRand.secureRandInt _ _ _ Hd Hr []
           ltac:(constructor) ltac:(cbn [length]; rewrite length_map; lia)).
Qed.

(** X9. In the crypto/rand variant every read that delivers its four
    bytes yields a roll: with [n <= 18] such reads ahead,
    [generateDicewareNumber] with [numDice = n] cannot fail, uses exactly
    these [n] reads and returns the number composed of their rolls. *)
Theorem cryptorand_generate_uses_one_read_per_die reads rest :
  Forall delivered reads -> (length reads <= 18)%nat ->
  generateDicewareNumber CryptoRand.secureRandInt (Z.of_nat (length reads))
    (reads ++ rest) =
  Returns ((compose_rolls (map (roll_of_read 6) reads), None), rest) /\
  Forall (fun r => 0 <= r < 6) (map (roll_of_read 6) reads).
Proof.
  intros Hreads Hlen. split.
  - apply cryptorand_generate_delivered; assumption.
  - apply (draws_delivered reads rest Hreads).
Qed.

Lemma cryptorand_generate_uses_one_read_per_die_witness :
  generateDicewareNumber CryptoRand.secureRandInt 5
    ([CryptoRand.Read4 0 0 0 2; CryptoRand.Read4 128 0 0 0;
      CryptoRand.Read4 255 255 255 255; CryptoRand.Read4 0 0 1 0;
      CryptoRand.Read4 0 0 0 5] ++ [CryptoRand.ReadErr "EOF"]) =
  Returns ((31256, None), [CryptoRand.ReadErr "EOF"]).
Proof.
  apply (proj1 (cryptorand_generate_uses_one_read_per_die
                  [CryptoRand.Read4 0 0 0 2; CryptoRand.Read4 128 0 0 0;
                   CryptoRand.Read4 255 255 255 255; CryptoRand.Read4 0 0 1 0;
                   CryptoRand.Read4 0 0 0 5] [CryptoRand.ReadErr "EOF"]
                  ltac:(repeat constructor) ltac:(cbn; lia))).
Defined.

(** ** Whole runs *)

Lemma generates_delivered k : forall reads rest,
  length reads = (5 * k)%nat -> Forall delivered reads ->
  exists ns,
    generates CryptoRand.secureRandInt (reads ++ rest) ns rest /\
    length ns = k.
Proof.
  induction k as [|k IH]; intros reads rest Hlen Hreads.
  - destruct reads; [|discriminate Hlen]. exists []. split; constructor.
  - rewrite <- (take_drop 5 reads) in Hreads |- *.
    apply Forall_app in Hreads as [Htake Hdrop].
    assert (Hl5 : length (take 5 reads) = 5%nat) by (rewrite length_take; lia).
    destruct (IH (drop 5 reads) rest) as (ns & Hgen & Hns).
    { rewrite length_drop. lia. }
    { exact Hdrop. }
    pose proof (cryptorand_generate_delivered (take 5 reads)
                  (drop 5 reads ++ rest) Htake ltac:(lia)) as Hfirst.
    rewrite Hl5 in Hfirst. change (Z.of_nat 5) with 5 in Hfirst.
    exists (compose_rolls (map (roll_of_read 6) (take 5 reads)) :: ns). split.
    + rewrite <- app_assoc. econstructor; [exact Hfirst|exact Hgen].
    + cbn [length]. lia.
Qed.

(** X10. The crypto/rand variant needs five reads per number and nothing
    else from the entropy source: when the dictionary loads (or none is
    asked for) and [5 * rolls] reads deliver, the run prints all its
    numbers, writes nothing to standard error and exits with status 0,
    leaving the later reads unused. *)
Theorem cryptorand_run_completes fl e dict reads rest :
  1 <= rolls fl ->
  flag_dictionary fl e = (dict, None) ->
  Z.of_nat (length reads) = 5 * rolls fl ->
  Forall delivered reads ->
  exists ns,
    Z.of_nat (length ns) = rolls fl /\
    generates CryptoRand.secureRandInt (reads ++ rest) ns rest /\
    CryptoRand.main fl e (reads ++ rest) =
    {| stdout :=
         numbers_output dict 0 ns ++
         (if showPassphrase fl && (0 <? Z.of_nat (length (found_words dict ns)))
          then [passphrase_line " " (found_words dict ns)] else []);
       stderr := [];
       exit_status := Exit 0 |}.
Proof.
  intros Hrolls Hdict Hlen Hreads.
  destruct (generates_delivered (Z.to_nat (rolls fl)) reads rest
              ltac:(lia) Hreads) as (ns & Hgen & Hns).
  exists ns. split; [lia|]. split; [exact Hgen|].
  rewrite cryptorand_main_generates by exact Hrolls.
  apply (generate_and_print_completes _ fl e " " dict _ ns rest Hdict Hgen).
  lia.
Qed.

Lemma cryptorand_run_completes_witness :
  exists ns,
    Z.of_nat (length ns) = 1 /\
    generates CryptoRand.secureRandInt
      ([CryptoRand.Read4 0 0 0 2; CryptoRand.Read4 128 0 0 0;
        CryptoRand.Read4 255 255 255 255; CryptoRand.Read4 0 0 1 0;
        CryptoRand.Read4 0 0 0 5] ++ [CryptoRand.ReadErr "EOF"]) ns
      [CryptoRand.ReadErr "EOF"] /\
    CryptoRand.main
      {| rolls := 1; dictFile := ""; showPassphrase := true; separator := "" |}
      {| prog := "dwp"; flag_defaults := ""; files := fun _ => inl "no such file" |}
      ([CryptoRand.Read4 0 0 0 2; CryptoRand.Read4 128 0 0 0;
        CryptoRand.Read4 255 255 255 255; CryptoRand.Read4 0 0 1 0;
        CryptoRand.Read4 0 0 0 5] ++ [CryptoRand.ReadErr "EOF"]) =
    {| stdout :=
         numbers_output None 0 ns ++
         (if true && (0 <? Z.of_nat (length (found_words None ns)))
          then [passphrase_line " " (found_words None ns)] else []);
       stderr := [];
       exit_status := Exit 0 |}.
Proof.
  apply (cryptorand_run_completes
           {| rolls := 1; dictFile := ""; showPassphrase := true; separator := "" |}
           {| prog := "dwp"; flag_defaults := ""; files := fun _ => inl "no such file" |}
           None
           [CryptoRand.Read4 0 0 0 2; CryptoRand.Read4 128 0 0 0;
            CryptoRand.Read4 255 255 255 255; CryptoRand.Read4 0 0 1 0;
            CryptoRand.Read4 0 0 0 5] [CryptoRand.ReadErr "EOF"]).
  - cbn. lia.
  - reflexivity.
  - reflexivity.
  - repeat constructor.
Defined.

(** X11. The byte 255 is never used by the TPM sampler: for every bound in
    1..255 it is retried, also for the bounds that divide 256, where no
    byte would have to be rejected. *)
Theorem tpm_sampler_never_uses_255 max rest :
  1 <= max <= 255 ->
  Tpm.secureRandInt max (Tpm.Random 255 :: rest) = Tpm.secureRandInt max rest.
Proof.
  intros Hmax. unfold Tpm.secureRandInt.
  rewrite tpm_nonzero_bound by exact Hmax.
  apply (rejection_loop_rejected max [255] rest Hmax).
  constructor; [|constructor].
  pose proof (Z.mod_pos_bound 255 max ltac:(lia)). lia.
Qed.

Lemma tpm_sampler_never_uses_255_witness :
  Tpm.secureRandInt 2 [Tpm.Random 255; Tpm.Random 7] =
  Tpm.secureRandInt 2 [Tpm.Random 7].
Proof. apply (tpm_sampler_never_uses_255 2 [Tpm.Random 7]). lia. Defined.

(** ** More on the dictionary *)

Lemma fold_insert_entry_lookup_inv es : forall (dict : gmap Z string) k w,
  fold_left insert_entry es dict !! k = Some w ->
  (k, w) ∈ es \/ dict !! k = Some w.
Proof.
  induction es as [|[k0 w0] es IH]; intros dict k w Hk; [right; exact Hk|].
  cbn [fold_left] in Hk. destruct (IH _ _ _ Hk) as [Hin|Hd].
  - left. right. exact Hin.
  - unfold insert_entry in Hd. cbn [fst snd] in Hd.
    destruct (decide (k0 = k)) as [->|Hne].
    + rewrite lookup_insert_eq in Hd. injection Hd as ->. left. left.
    + rewrite lookup_insert_ne in Hd by exact Hne. right. exact Hd.
Qed.

(** X12. [loadDictionary] invents nothing: every entry of the mapping it
    returns is the key and the word of some line of the file. *)
Theorem loadDictionary_entries_from_lines fs filename f d k w :
  fs filename = inr f ->
  loadDictionary fs filename = (Some d, None) ->
  d !! k = Some w ->
  exists line, line ∈ lines_of (content f) /\ entry_of line = Some (k, w).
Proof.
  intros Hf Hload Hk.
  rewrite (loadDictionary_opened fs filename f Hf) in Hload.
  destruct (scanner_err (raw_lines (content f)) (read_err f)); [discriminate|].
  injection Hload as <-.
  apply fold_insert_entry_lookup_inv in Hk as [Hin|Hempty].
  - apply list_elem_of_omap in Hin as (line & Hline & Hentry).
    exists line. split; assumption.
  - rewrite lookup_empty in Hempty. discriminate.
Qed.

Lemma loadDictionary_entries_from_lines_witness :
  exists line,
    line ∈ lines_of ("11111" +:+ String tab ("apple" +:+ nl)) /\
    entry_of line = Some (11111, "apple").
Proof.
  apply (loadDictionary_entries_from_lines
           (fun _ => inr {| content := "11111" +:+ String tab ("apple" +:+ nl);
                            read_err := None |})
           "words.txt"
           {| content := "11111" +:+ String tab ("apple" +:+ nl); read_err := None |}
           (<[11111 := "apple"]> ∅) 11111 "apple").
  - reflexivity.
  - vm_compute. reflexivity.
  - vm_compute. reflexivity.
Defined.

Lemma scanner_err_too_long raws e :
  Exists (fun raw => maxScanTokenSize <= len raw) raws ->
  scanner_err raws e = Some ErrTooLong.
Proof.
  induction 1 as [raw raws Hlong|raw raws _ IH]; cbn [scanner_err].
  - destruct (Z.leb_spec maxScanTokenSize (len raw)); [reflexivity|lia].
  - destruct (maxScanTokenSize <=? len raw); [reflexivity|exact IH].
Qed.

(** X13. One line of 64 KiB or more makes the whole load fail: the result
    is no mapping and the scanner's error, whatever the other lines hold
    and even when they are all well formed. *)
Theorem loadDictionary_line_too_long fs filename f :
  fs filename = inr f ->
  Exists (fun raw => maxScanTokenSize <= len raw) (raw_lines (content f)) ->
  loadDictionary fs filename = (None, Some ErrTooLong).
Proof.
  intros Hf Hlong. rewrite (loadDictionary_opened fs filename f Hf).
  rewrite (scanner_err_too_long _ _ Hlong). reflexivity.
Qed.

(** *** Lines *)

Lemma raw_lines_line a b :
  has_newline a = false ->
  raw_lines (a +:+ String newline b) = a :: raw_lines b.
Proof.
  induction a as [|c a IH]; intros Ha.
  - rewrite append_empty_l. cbn [raw_lines]. rewrite Ascii.eqb_refl. reflexivity.
  - cbn [has_newline] in Ha. apply orb_false_iff in Ha as [Hc Ha].
    rewrite append_cons. cbn [raw_lines]. rewrite Hc, (IH Ha). reflexivity.
Qed.

Lemma raw_lines_last a :
  has_newline a = false -> a <> "" -> raw_lines a = [a].
Proof.
  induction a as [|c a IH]; intros Ha Hne; [congruence|].
  cbn [has_newline] in Ha. apply orb_false_iff in Ha as [Hc Ha].
  cbn [raw_lines]. rewrite Hc.
  destruct a as [|c' a']; [reflexivity|].
  rewrite (IH Ha) by discriminate. reflexivity.
Qed.



Lemma append_assoc a b c : (a +:+ b) +:+ c = a +:+ (b +:+ c).
Proof.
  induction a as [|x a IH]; [reflexivity|].
  rewrite !append_cons, IH. reflexivity.
Qed.



Lemma len_repeat c n : len (string_of_list_ascii (repeat c n)) = Z.of_nat n.
Proof.
  unfold len. f_equal. induction n as [|n IH]; [reflexivity|].
  cbn [repeat string_of_list_ascii String.length]. rewrite IH. reflexivity.
Qed.

Lemma has_newline_repeat c n :
  Ascii.eqb c newline = false ->
  has_newline (string_of_list_ascii (repeat c n)) = false.
Proof.
  intros Hc. induction n as [|n IH]; [reflexivity|].
  cbn [repeat string_of_list_ascii has_newline]. rewrite Hc, IH. reflexivity.
Qed.

Lemma loadDictionary_line_too_long_witness :
  loadDictionary
    (fun _ => inr {| content := ("11111" +:+ String tab "apple") +:+
                                String newline
                                  (string_of_list_ascii
                                     (repeat "x"%char (Z.to_nat 65536)));
                     read_err := None |}) "words.txt" =
  (None, Some ErrTooLong).
Proof.
  apply (loadDictionary_line_too_long _ "words.txt"
           {| content := ("11111" +:+ String tab "apple") +:+
                         String newline
                           (string_of_list_ascii
                              (repeat "x"%char (Z.to_nat 65536)));
              read_err := None |} eq_refl).
  cbn [content]. rewrite raw_lines_line by reflexivity.
  apply Exists_cons_tl.
  assert (Hlen : maxScanTokenSize <=
                 len (string_of_list_ascii (repeat "x"%char (Z.to_nat 65536)))).
  { rewrite len_repeat, Z2Nat.id by lia. unfold maxScanTokenSize. lia. }
  rewrite raw_lines_last.
  - apply Exists_cons_hd. exact Hlen.
  - apply has_newline_repeat. reflexivity.
  - intros Hempty. rewrite Hempty in Hlen.
    unfold maxScanTokenSize, len in Hlen. cbn [String.length] in Hlen. lia.
Defined.

(** *** The key of a line *)

Lemma length_append a b :
  String.length (a +:+ b) = (String.length a + String.length b)%nat.
Proof.
  induction a as [|c a IH]; [reflexivity|].
  rewrite append_cons. cbn [String.length]. rewrite IH. reflexivity.
Qed.

Lemma blank_space c :
  blank c = true ->
  byte_of c < 128 /\ byte_of c <> 10 /\ isSpace (byte_of c) = true.
Proof.
  unfold blank, between. intros H.
  assert (Hb : 11 <= byte_of c <= 13 \/ byte_of c = 32).
  { destruct (Z.leb_spec 11 (byte_of c)), (Z.leb_spec (byte_of c) 13),
      (Z.eqb_spec (byte_of c) 32); cbn in H; try discriminate H; lia. }
  split; [lia|]. split; [lia|].
  unfold isSpace, between.
  destruct (Z.leb_spec 9 (byte_of c)), (Z.leb_spec (byte_of c) 13),
    (Z.eqb_spec (byte_of c) 32); cbn; try reflexivity; lia.
Qed.

Lemma blank_not_tab ws : all_blank ws = true -> has_tab ws = false.
Proof.
  induction ws as [|c ws IH]; intros Hws; [reflexivity|].
  cbn [all_blank] in Hws. apply andb_true_iff in Hws as [Hc Hws].
  cbn [has_tab]. rewrite (IH Hws), orb_false_r.
  destruct (Ascii.eqb_spec c tab) as [->|]; [discriminate Hc|reflexivity].
Qed.

Lemma split_tab_cons line : exists p ps, split_tab line = p :: ps.
Proof.
  destruct line as [|c line]; cbn [split_tab]; [eauto|].
  destruct (Ascii.eqb c tab); [eauto|].
  destruct (split_tab line); eauto.
Qed.

Lemma split_tab_prefix ws line p ps :
  has_tab ws = false -> split_tab line = p :: ps ->
  split_tab (ws +:+ line) = (ws +:+ p) :: ps.
Proof.
  intros Hws Hline. induction ws as [|c ws IH].
  - rewrite !append_empty_l. exact Hline.
  - cbn [has_tab] in Hws. apply orb_false_iff in Hws as [Hc Hws].
    rewrite !append_cons. cbn [split_tab]. rewrite Hc, (IH Hws). reflexivity.
Qed.

Lemma skipSpace_fuel_blank s ws : forall n,
  all_blank ws = true ->
  skipSpace_fuel (String.length ws + n) (ws +:+ s) = skipSpace_fuel n s.
Proof.
  induction ws as [|c ws IH]; intros n Hws; [reflexivity|].
  cbn [all_blank] in Hws. apply andb_true_iff in Hws as [Hc Hws].
  destruct (blank_space c Hc) as (Hlt & Hnl & Hsp).
  rewrite append_cons. cbn [String.length Nat.add skipSpace_fuel decodeRune].
  destruct (Z.ltb_spec (byte_of c) 128); [|lia].
  destruct (Z.eqb_spec (byte_of c) (byte_of newline)) as [Heq|_].
  { change (byte_of newline) with 10 in Heq. lia. }
  rewrite Hsp. apply IH. exact Hws.
Qed.

(** X15. Blanks before the key do not matter: with any run of spaces,
    carriage returns, vertical tabs or form feeds put in front of a line,
    the integer scan of its first field gives the same result, the line
    stands for the same entry and the loop body does the same to the
    mapping. *)
Theorem sscanf_d_skips_leading_blanks ws :
  all_blank ws = true ->
  (forall s, sscanf_d (ws +:+ s) = sscanf_d s) /\
  (forall line, entry_of (ws +:+ line) = entry_of line) /\
  (forall dict line, add_line dict (ws +:+ line) = add_line dict line).
Proof.
  intros Hws.
  assert (Hscan : forall s, sscanf_d (ws +:+ s) = sscanf_d s).
  { intros s. unfold sscanf_d, skipSpace.
    rewrite length_append, skipSpace_fuel_blank by exact Hws. reflexivity. }
  assert (Hentry : forall line, entry_of (ws +:+ line) = entry_of line).
  { intros line. unfold entry_of.
    destruct (split_tab_cons line) as (p & ps & Hline).
    rewrite (split_tab_prefix ws line p ps (blank_not_tab ws Hws) Hline), Hline.
    destruct ps as [|p1 ps]; [reflexivity|]. rewrite Hscan. reflexivity. }
  split; [exact Hscan|]. split; [exact Hentry|].
  intros dict line. rewrite !add_line_entry, Hentry. reflexivity.
Qed.

Lemma sscanf_d_skips_leading_blanks_witness :
  entry_of ("  " +:+ ("11111" +:+ String tab "apple")) = Some (11111, "apple").
Proof.
  rewrite (proj1 (proj2 (sscanf_d_skips_leading_blanks "  " eq_refl))).
  reflexivity.
Defined.

Lemma take_number_decimal c ds rest v :
  parseDigits 0 (String c ds) = Some v -> number_stop rest ->
  is_decimal c = true /\ take_number (String c ds +:+ rest) = String c ds.
Proof.
  intros Hv Hstop.
  destruct (parseDigits_take (String c ds) 0 v rest Hv Hstop) as [Htake _].
  split; [|exact Htake].
  cbn [parseDigits] in Hv. destruct (is_decimal c); [reflexivity|discriminate].
Qed.

Lemma scan_signed_digits digits rest v :
  digits <> "" -> parseDigits 0 digits = Some v -> number_stop rest ->
  sscanf_d (digits +:+ rest) = (if v <? 2 ^ 63 then Some v else None) /\
  sscanf_d (String "+" digits +:+ rest) =
    (if v <? 2 ^ 63 then Some v else None) /\
  sscanf_d (String "-" digits +:+ rest) =
    (if v <=? 2 ^ 63 then Some (- v) else None).
Proof.
  intros Hne Hv Hstop.
  destruct digits as [|c ds]; [congruence|].
  destruct (take_number_decimal c ds rest v Hv Hstop) as [Hc Htake].
  split; [|split].
  - unfold sscanf_d. rewrite append_cons in Htake |- *.
    rewrite skipSpace_decimal by exact Hc.
    rewrite (decimal_not_sign c Hc), Htake.
    assert (Hminus : Ascii.eqb c "-"%char = false).
    { destruct (Ascii.eqb_spec c "-"%char) as [->|]; [discriminate Hc|reflexivity]. }
    rewrite Hminus. unfold parseInt. rewrite Hv. reflexivity.
  - unfold sscanf_d. rewrite (append_cons "+"%char).
    change (skipSpace (String "+" (String c ds +:+ rest)))
      with (Some (String "+"%char (String c ds +:+ rest))).
    cbn [is_sign Ascii.eqb Bool.eqb orb].
    rewrite Htake. unfold parseInt. rewrite Hv. reflexivity.
  - unfold sscanf_d. rewrite (append_cons "-"%char).
    change (skipSpace (String "-" (String c ds +:+ rest)))
      with (Some (String "-"%char (String c ds +:+ rest))).
    cbn [is_sign Ascii.eqb Bool.eqb orb].
    rewrite Htake. unfold parseInt. rewrite Hv. reflexivity.
Qed.

(** X16. The key is read as a signed decimal number of 64 bits: a run of
    digits with value [v], with or without a sign in front, gives [v] or
    [-v] when that fits, and makes the scan fail, so that the line is
    skipped, when it does not. *)
Theorem sscanf_d_sign_and_range digits rest v :
  digits <> "" -> parseDigits 0 digits = Some v -> number_stop rest ->
  sscanf_d (digits +:+ rest) = (if v <? 2 ^ 63 then Some v else None) /\
  sscanf_d (String "+" digits +:+ rest) =
    (if v <? 2 ^ 63 then Some v else None) /\
  sscanf_d (String "-" digits +:+ rest) =
    (if v <=? 2 ^ 63 then Some (- v) else None).
Proof. exact (scan_signed_digits digits rest v). Qed.

Lemma sscanf_d_sign_and_range_witness :
  sscanf_d (String "-" "9223372036854775809" +:+ "x") =
  (if 9223372036854775809 <=? 2 ^ 63 then Some (- 9223372036854775809) else None).
Proof.
  apply (proj2 (proj2 (sscanf_d_sign_and_range "9223372036854775809" "x"
                         9223372036854775809 ltac:(discriminate) eq_refl eq_refl))).
Defined.

(** X17. Only the first two fields of a line count: what follows a second
    tab is ignored, and the word may be empty. *)
Theorem entry_of_ignores_extra_fields f0 f1 more :
  has_tab f0 = false -> has_tab f1 = false ->
  entry_of (f0 +:+ String tab (f1 +:+ String tab more)) =
    entry_of (f0 +:+ String tab f1) /\
  entry_of (f0 +:+ String tab f1) =
    match sscanf_d f0 with
    | Some number => Some (number, f1)
    | None => None
    end.
Proof.
  intros H0 H1. unfold entry_of.
  rewrite !split_tab_field by assumption.
  rewrite (split_tab_last f1 H1). split; reflexivity.
Qed.

Lemma entry_of_ignores_extra_fields_witness :
  entry_of ("11111" +:+ String tab ("apple" +:+ String tab "a fruit")) =
  entry_of ("11111" +:+ String tab "apple").
Proof.
  apply (proj1 (entry_of_ignores_extra_fields "11111" "apple" "a fruit"
                  eq_refl eq_refl)).
Defined.



(** ** Fatal errors and plain runs *)

(** X19. With [-r] below 1 both variants stop before anything else: the
    error and the usage text go to standard error, nothing is printed on
    standard output, the exit status is 1, and neither the entropy source
    nor the TPM handle nor the dictionary file has any influence. *)
Theorem invalid_rolls_is_fatal fl e :
  rolls fl < 1 ->
  (forall s,
      CryptoRand.main fl e s =
      {| stdout := []; stderr := rolls_error :: CryptoRand.printUsage e;
         exit_status := Exit 1 |}) /\
  (forall tpm,
      Tpm.main fl e tpm =
      {| stdout := []; stderr := rolls_error :: Tpm.printUsage e;
         exit_status := Exit 1 |}).
Proof.
  intros Hrolls. split.
  - intros s. unfold CryptoRand.main.
    destruct (Z.ltb_spec (rolls fl) 1); [reflexivity|lia].
  - intros tpm. unfold Tpm.main.
    destruct (Z.ltb_spec (rolls fl) 1); [reflexivity|lia].
Qed.

Lemma invalid_rolls_is_fatal_witness :
  exit_status
    (Tpm.main
       {| rolls := 0; dictFile := "words.txt"; showPassphrase := true;
          separator := " " |}
       {| prog := "dwp"; flag_defaults := ""; files := fun _ => inl "no such file" |}
       (inl "no TPM")) = Exit 1.
Proof.
  rewrite (proj2 (invalid_rolls_is_fatal
                    {| rolls := 0; dictFile := "words.txt"; showPassphrase := true;
                       separator := " " |}
                    {| prog := "dwp"; flag_defaults := "";
                       files := fun _ => inl "no such file" |}
                    ltac:(cbn; lia)) (inl "no TPM")).
  reflexivity.
Defined.

Lemma flag_dictionary_named fl e :
  dictFile fl <> "" ->
  flag_dictionary fl e = loadDictionary (files e) (dictFile fl).
Proof.
  intros Hne. unfold flag_dictionary.
  destruct (String.eqb_spec (dictFile fl) ""); [contradiction|reflexivity].
Qed.

(** X20. With [-r] at least 1 and a dictionary named by [-d] that cannot
    be loaded, because the file does not open or because the scanner
    fails: the crypto/rand variant, and the TPM variant once the TPM handle
    is open, write the message to standard error, leave standard output
    empty, exit with status 1 and ask the entropy source for nothing. When
    the TPM handle does not open, the TPM variant ends before it reads the
    dictionary, with its own message and status 0. *)
Theorem dictionary_failure_is_fatal fl e d msg :
  1 <= rolls fl ->
  dictFile fl <> "" ->
  loadDictionary (files e) (dictFile fl) = (d, Some msg) ->
  (forall s,
      CryptoRand.main fl e s =
      {| stdout := [];
         stderr := ["Error loading dictionary: " +:+ msg +:+ nl];
         exit_status := Exit 1 |}) /\
  (forall rwc,
      Tpm.main fl e (inr rwc) =
      {| stdout := [];
         stderr := ["Error loading dictionary: " +:+ msg +:+ nl];
         exit_status := Exit 1 |}) /\
  (forall err,
      Tpm.main fl e (inl err) =
      {| stdout := [];
         stderr := ["Failed to open TPM: " +:+ err +:+ nl];
         exit_status := Exit 0 |}).
Proof.
  intros Hrolls Hname Hload.
  pose proof (flag_dictionary_named fl e Hname) as Hflag.
  rewrite Hload in Hflag. split; [|split].
  - intros s. rewrite cryptorand_main_generates by exact Hrolls.
    unfold generate_and_print. rewrite Hflag. reflexivity.
  - intros rwc. rewrite tpm_main_generates by exact Hrolls.
    unfold generate_and_print. rewrite Hflag. reflexivity.
  - intros err. unfold Tpm.main.
    destruct (Z.ltb_spec (rolls fl) 1); [lia|reflexivity].
Qed.

Lemma dictionary_failure_is_fatal_witness :
  CryptoRand.main
    {| rolls := 3; dictFile := "missing.txt"; showPassphrase := false;
       separator := " " |}
    {| prog := "dwp"; flag_defaults := "";
       files := fun _ => inl "open missing.txt: no such file or directory" |}
    [] =
  {| stdout := [];
     stderr := ["Error loading dictionary: " +:+
                "open missing.txt: no such file or directory" +:+ nl];
     exit_status := Exit 1 |}.
Proof.
  apply (proj1 (dictionary_failure_is_fatal
                  {| rolls := 3; dictFile := "missing.txt"; showPassphrase := false;
                     separator := " " |}
                  {| prog := "dwp"; flag_defaults := "";
                     files := fun _ => inl "open missing.txt: no such file or directory" |}
                  None "open missing.txt: no such file or directory"
                  ltac:(cbn; lia) ltac:(discriminate) eq_refl)).
Defined.

Lemma numbers_output_no_dictionary ns : forall i,
  length (numbers_output None i ns) = (2 * length ns)%nat.
Proof.
  induction ns as [|n ns IH]; intros i; [reflexivity|].
  cbn [numbers_output]. rewrite length_app, IH.
  unfold number_output. cbn [length app]. lia.
Qed.

(** X21. Without [-d] there is no passphrase, also with [-p]: a run that
    generates all its numbers prints for each of them the number and a
    newline, and nothing else. *)
Theorem no_dictionary_no_passphrase fl e ns :
  1 <= rolls fl ->
  dictFile fl = "" ->
  Z.of_nat (length ns) = rolls fl ->
  (forall s s1,
      generates CryptoRand.secureRandInt s ns s1 ->
      stdout (CryptoRand.main fl e s) = numbers_output None 0 ns) /\
  (forall rwc s1,
      generates Tpm.secureRandInt rwc ns s1 ->
      stdout (Tpm.main fl e (inr rwc)) = numbers_output None 0 ns) /\
  length (numbers_output None 0 ns) = (2 * length ns)%nat /\
  (forall line, line ∈ numbers_output None 0 ns -> ~ is_passphrase_line line).
Proof.
  intros Hrolls Hname Hlen.
  assert (Hflag : flag_dictionary fl e = (None, None)).
  { unfold flag_dictionary. rewrite Hname. reflexivity. }
  split; [|split; [|split]].
  - intros s s1 Hgen. rewrite cryptorand_main_generates by exact Hrolls.
    rewrite (generate_and_print_completes _ fl e " " None s ns s1 Hflag Hgen Hlen).
    cbn [stdout found_words length]. rewrite andb_false_r. apply app_nil_r.
  - intros rwc s1 Hgen. rewrite tpm_main_generates by exact Hrolls.
    rewrite (generate_and_print_completes _ fl e (separator fl) None rwc ns s1
               Hflag Hgen Hlen).
    cbn [stdout found_words length]. rewrite andb_false_r. apply app_nil_r.
  - apply numbers_output_no_dictionary.
  - intros line Hin. exact (numbers_output_not_passphrase None ns 0 line Hin).
Qed.

Lemma no_dictionary_no_passphrase_witness :
  stdout
    (CryptoRand.main
       {| rolls := 1; dictFile := ""; showPassphrase := true; separator := " " |}
       {| prog := "dwp"; flag_defaults := ""; files := fun _ => inl "no such file" |}
       [CryptoRand.Read4 0 0 0 2; CryptoRand.Read4 128 0 0 0;
        CryptoRand.Read4 255 255 255 255; CryptoRand.Read4 0 0 1 0;
        CryptoRand.Read4 0 0 0 5]) =
  numbers_output None 0 [31256].
Proof.
  apply (proj1 (no_dictionary_no_passphrase
                  {| rolls := 1; dictFile := ""; showPassphrase := true;
                     separator := " " |}
                  {| prog := "dwp"; flag_defaults := "";
                     files := fun _ => inl "no such file" |}
                  [31256] ltac:(cbn; lia) eq_refl eq_refl) _ []).
  eapply generates_cons; [vm_compute; reflexivity|apply generates_nil].
Defined.

(** ** The printed number *)

(** X22. A number composed of five rolls is printed by [%05d] as the five
    characters of its die faces, the first roll first: no padding zero and
    no sign ever shows. *)
Theorem fmt_05d_dice rs :
  length rs = 5%nat -> Forall (fun r => 0 <= r < 6) rs ->
  fmt_05d (compose_rolls rs) = faces rs.
Proof.
  intros Hlen Hrs.
  destruct rs as [|r1 [|r2 [|r3 [|r4 [|r5 [|]]]]]]; try discriminate Hlen.
  clear Hlen.
  repeat match goal with
         | H : Forall _ (_ :: _) |- _ => inversion H; subst; clear H
         end.
  assert (Hall :
    forallb (fun a => forallb (fun b => forallb (fun c => forallb (fun d =>
      forallb (fun e =>
        String.eqb (fmt_05d (compose_rolls [a; b; c; d; e])) (faces [a; b; c; d; e]))
      [0;1;2;3;4;5]) [0;1;2;3;4;5]) [0;1;2;3;4;5]) [0;1;2;3;4;5]) [0;1;2;3;4;5]
    = true) by (vm_compute; reflexivity).
  assert (Hin : forall r, 0 <= r < 6 -> In r [0;1;2;3;4;5]).
  { intros r Hr. cbn [In]. lia. }
  rewrite forallb_forall in Hall. specialize (Hall r1 (Hin r1 ltac:(assumption))).
  rewrite forallb_forall in Hall. specialize (Hall r2 (Hin r2 ltac:(assumption))).
  rewrite forallb_forall in Hall. specialize (Hall r3 (Hin r3 ltac:(assumption))).
  rewrite forallb_forall in Hall. specialize (Hall r4 (Hin r4 ltac:(assumption))).
  rewrite forallb_forall in Hall. specialize (Hall r5 (Hin r5 ltac:(assumption))).
  apply String.eqb_eq in Hall. exact Hall.
Qed.

Lemma fmt_05d_dice_witness : fmt_05d (compose_rolls [2; 0; 3; 0; 4]) = "31415".
Proof.
  apply (fmt_05d_dice [2; 0; 3; 0; 4] eq_refl). repeat constructor; lia.
Defined.

Lemma read_failure_exits_one_witness :
  Tpm.main
    {| rolls := 2; dictFile := ""; showPassphrase := false; separator := " " |}
    {| prog := "dwp"; flag_defaults := ""; files := fun _ => inl "no such file" |}
    (inr [Tpm.Random 0; Tpm.Random 6; Tpm.Random 12; Tpm.Random 18; Tpm.Random 24;
          Tpm.Random 255; Tpm.GetRandomErr "tpm: transmit failed"]) =
  {| stdout := numbers_output None 0 [11111];
     stderr := ["Error generating Diceware number: " +:+
                "failed to generate random number: tpm: transmit failed" +:+ nl];
     exit_status := Exit 1 |}.
Proof.
  apply (proj2 (read_failure_exits_one
                  {| rolls := 2; dictFile := ""; showPassphrase := false;
                     separator := " " |}
                  {| prog := "dwp"; flag_defaults := "";
                     files := fun _ => inl "no such file" |}
                  None [11111] 0
                  "failed to generate random number: tpm: transmit failed"
                  ltac:(cbn; lia) eq_refl ltac:(cbn; lia))
           _ [Tpm.Random 255; Tpm.GetRandomErr "tpm: transmit failed"] []).
  - eapply generates_cons; [vm_compute; reflexivity|apply generates_nil].
  - vm_compute. reflexivity.
Defined.

Section NoPanic.
Context {Src : Type}.
Variable sampler : Z -> Src -> outcome ((Z * error) * Src).
Hypothesis sampler_no_panic : forall s m, sampler 6 s <> Panics m.



End NoPanic.


(** ** The dictionary on whole files *)

Lemma has_tab_repeat c n :
  Ascii.eqb c tab = false ->
  has_tab (string_of_list_ascii (repeat c n)) = false.
Proof.
  intros Hc. induction n as [|n IH]; [reflexivity|].
  cbn [repeat string_of_list_ascii has_tab]. rewrite Hc, IH. reflexivity.
Qed.

Lemma no_tab_malformed line : has_tab line = false -> malformed line.
Proof.
  intros Hline. left. rewrite (split_tab_last line Hline). cbn [length]. lia.
Qed.

Lemma split_tab_two_fields f0 f1 more :
  has_tab f0 = false -> has_tab f1 = false ->
  (more = "" \/ exists t, more = String tab t) ->
  exists ps, split_tab (f0 +:+ String tab (f1 +:+ more)) = f0 :: f1 :: ps.
Proof.
  intros H0 H1 [->|[t ->]].
  - rewrite append_empty_r, (split_tab_field f0 f1 H0), (split_tab_last f1 H1).
    eauto.
  - rewrite (split_tab_field f0 _ H0), (split_tab_field f1 t H1). eauto.
Qed.

(** C7, as amended. In a load that the scanner does not end with an error
    (no line of 64 KiB or more, no failed read), [loadDictionary] skips
    every line with fewer than two tab-separated fields, and every line
    whose first field fails the integer scan: such a line leaves the
    mapping as it was, and the load succeeds with the entries of the
    well-formed lines inserted in order. A well-formed line before or
    after a malformed one is in the mapping, under its key, and with its
    word unless a later line has the same key. *)
Theorem loadDictionary_skips_malformed fs filename f :
  fs filename = inr f ->
  scanner_err (raw_lines (content f)) (read_err f) = None ->
  (forall line, has_tab line = false -> malformed line) /\
  (forall f0 f1 more,
      has_tab f0 = false -> has_tab f1 = false ->
      (more = "" \/ exists t, more = String tab t) ->
      (sscanf_d f0 = None -> malformed (f0 +:+ String tab (f1 +:+ more))) /\
      (forall k, sscanf_d f0 = Some k ->
         entry_of (f0 +:+ String tab (f1 +:+ more)) = Some (k, f1))) /\
  (forall dict line, malformed line -> add_line dict line = dict) /\
  (forall line, malformed line <-> entry_of line = None) /\
  exists d,
    loadDictionary fs filename = (Some d, None) /\
    d = fold_left insert_entry (omap entry_of (lines_of (content f))) ∅ /\
    (forall pre bad post,
        lines_of (content f) = pre ++ bad :: post -> malformed bad ->
        d = fold_left insert_entry (omap entry_of (pre ++ post)) ∅) /\
    (forall pre line post k w,
        lines_of (content f) = pre ++ line :: post ->
        entry_of line = Some (k, w) ->
        is_Some (d !! k) /\
        ((forall l' kw, l' ∈ post -> entry_of l' = Some kw -> kw.1 <> k) ->
         d !! k = Some w)).
Proof.
  intros Hf Herr.
  split; [exact no_tab_malformed|].
  split.
  { intros f0 f1 more H0 H1 Hmore.
    destruct (split_tab_two_fields f0 f1 more H0 H1 Hmore) as [ps Hsplit].
    split.
    - intros Hscan. right. rewrite Hsplit. exact Hscan.
    - intros k Hscan. unfold entry_of. rewrite Hsplit, Hscan. reflexivity. }
  split; [exact add_line_malformed|].
  split; [exact malformed_entry|].
  pose proof (loadDictionary_opened fs filename f Hf) as Hload.
  rewrite Herr in Hload.
  eexists. split; [exact Hload|]. split; [reflexivity|]. split.
  - intros pre bad post Hlines Hbad. rewrite Hlines.
    rewrite !omap_app. cbn [omap list_omap].
    apply malformed_entry in Hbad. rewrite Hbad. reflexivity.
  - intros pre line post k w Hlines Hentry. rewrite Hlines.
    rewrite omap_app. cbn [omap list_omap]. rewrite Hentry. split.
    + rewrite fold_left_app. cbn [fold_left].
      apply fold_insert_entry_is_Some. unfold insert_entry. cbn [fst snd].
      rewrite lookup_insert_eq. eauto.
    + intros Hlast. apply fold_insert_entry_last.
      intros kw Hin. apply list_elem_of_omap in Hin as (l' & Hl' & Hkw).
      exact (Hlast l' kw Hl' Hkw).
Qed.

Lemma loadDictionary_skips_malformed_witness :
  exists d,
    loadDictionary
      (fun _ => inr {| content := "11111" +:+ String tab ("apple" +:+ nl
                                  +:+ "no tab here" +:+ nl
                                  +:+ "x1" +:+ String tab ("pear" +:+ nl
                                  +:+ "12345" +:+ String tab ("beta" +:+ nl)));
                       read_err := None |}) "words.txt" = (Some d, None) /\
    d !! 11111 = Some "apple" /\ d !! 12345 = Some "beta" /\
    d = fold_left insert_entry [(11111, "apple"); (12345, "beta")] ∅.
Proof.
  destruct (loadDictionary_skips_malformed
              (fun _ => inr {| content := "11111" +:+ String tab ("apple" +:+ nl
                                          +:+ "no tab here" +:+ nl
                                          +:+ "x1" +:+ String tab ("pear" +:+ nl
                                          +:+ "12345" +:+ String tab ("beta" +:+ nl)));
                               read_err := None |}) "words.txt" _ eq_refl eq_refl)
    as (_ & _ & _ & _ & d & Hload & Hd & _ & Hin).
  exists d. split; [exact Hload|]. split; [|split].
  - apply (proj2 (Hin [] ("11111" +:+ String tab "apple")
                    ["no tab here"; "x1" +:+ String tab "pear";
                     "12345" +:+ String tab "beta"] 11111 "apple"
                    eq_refl eq_refl)).
    intros l' kw Hl' Hkw.
    rewrite !elem_of_cons, elem_of_nil in Hl'.
    destruct Hl' as [->|[->|[->|[]]]]; vm_compute in Hkw;
      try discriminate Hkw.
    injection Hkw as <-. discriminate.
  - apply (proj2 (Hin ["11111" +:+ String tab "apple"; "no tab here";
                       "x1" +:+ String tab "pear"]
                    ("12345" +:+ String tab "beta") [] 12345 "beta"
                    eq_refl eq_refl)).
    intros l' kw Hl'. inversion Hl'.
  - exact Hd.
Defined.

(** The claim C7 as it was stated, for every file content, fails on a
    file with a line too long for the scanner: the long line has a single
    field, the line before it is well formed, and the load returns the
    scanner's error and no mapping. *)
Lemma loadDictionary_long_line_aborts :
  malformed (string_of_list_ascii (repeat "x"%char (Z.to_nat 65536))) /\
  entry_of ("11111" +:+ String tab "apple") = Some (11111, "apple") /\
  loadDictionary
    (fun _ => inr {| content := ("11111" +:+ String tab "apple") +:+
                                String newline
                                  (string_of_list_ascii
                                     (repeat "x"%char (Z.to_nat 65536)));
                     read_err := None |}) "words.txt" =
  (None, Some ErrTooLong).
Proof.
  split; [|split].
  - apply no_tab_malformed. apply has_tab_repeat. reflexivity.
  - reflexivity.
  - rewrite (loadDictionary_opened _ "words.txt"
               {| content := ("11111" +:+ String tab "apple") +:+
                             String newline
                               (string_of_list_ascii
                                  (repeat "x"%char (Z.to_nat 65536)));
                  read_err := None |} eq_refl).
    cbn [content read_err]. rewrite raw_lines_line by reflexivity.
    assert (Hlen : maxScanTokenSize <=
                   len (string_of_list_ascii (repeat "x"%char (Z.to_nat 65536)))).
    { rewrite len_repeat, Z2Nat.id by lia. unfold maxScanTokenSize. lia. }
    rewrite scanner_err_too_long; [reflexivity|].
    apply Exists_cons_tl. rewrite raw_lines_last.
    + apply Exists_cons_hd. exact Hlen.
    + apply has_newline_repeat. reflexivity.
    + intros Hempty. rewrite Hempty in Hlen.
      unfold maxScanTokenSize, len in Hlen. cbn [String.length] in Hlen. lia.
Qed.

(** ** The passphrase line *)

(** C8, as amended. In a run that generates all its numbers [ns], the
    passphrase line is printed exactly when [-p] is set and at least one
    number was found in the dictionary; it then holds the found words, in
    the order of the numbers, each followed by the separator except the
    last: one space in the crypto/rand variant, the value of [-s] in the
    TPM variant. A number that is not in the dictionary adds no word. *)
Theorem passphrase_line_printed fl e dict ns :
  1 <= rolls fl ->
  flag_dictionary fl e = (dict, None) ->
  Z.of_nat (length ns) = rolls fl ->
  (forall s s1,
      generates CryptoRand.secureRandInt s ns s1 ->
      passphrase_output fl dict ns " " (CryptoRand.main fl e s)) /\
  (forall rwc s1,
      generates Tpm.secureRandInt rwc ns s1 ->
      passphrase_output fl dict ns (separator fl) (Tpm.main fl e (inr rwc))) /\
  (forall sep,
      join sep [] = "" /\
      (forall w, join sep [w] = w) /\
      (forall w w' ws,
          join sep (w :: w' :: ws) = w +:+ sep +:+ join sep (w' :: ws))) /\
  (forall d, dict = Some d ->
      found_words dict [] = [] /\
      (forall n ns',
          found_words dict (n :: ns') =
          match d !! n with
          | Some word => word :: found_words dict ns'
          | None => found_words dict ns'
          end)).
Proof.
  intros Hrolls Hdict Hlen. split; [|split; [|split]].
  - intros s s1 Hgen. rewrite cryptorand_main_generates by exact Hrolls.
    exact (passphrase_printed_iff CryptoRand.secureRandInt fl e " " dict s ns s1
             Hdict Hgen Hlen).
  - intros rwc s1 Hgen. rewrite tpm_main_generates by exact Hrolls.
    exact (passphrase_printed_iff Tpm.secureRandInt fl e (separator fl) dict
             rwc ns s1 Hdict Hgen Hlen).
  - intros sep. split; [reflexivity|]. split; reflexivity.
  - intros d ->. split; [reflexivity|].
    intros n ns'. cbn [found_words omap list_omap].
    destruct (d !! n); reflexivity.
Qed.

Lemma passphrase_line_printed_witness :
  stdout
    (Tpm.main
       {| rolls := 3; dictFile := "words.txt"; showPassphrase := true;
          separator := "-" |}
       {| prog := "dwp"; flag_defaults := "";
          files := fun _ =>
            inr {| content := "31415" +:+ String tab ("pi" +:+ nl +:+ "66666"
                              +:+ String tab ("six" +:+ nl +:+ "11111"
                              +:+ String tab ("one" +:+ nl)));
                   read_err := None |} |}
       (inr [Tpm.Random 2; Tpm.Random 0; Tpm.Random 3; Tpm.Random 0; Tpm.Random 4;
             Tpm.Random 1; Tpm.Random 1; Tpm.Random 1; Tpm.Random 1; Tpm.Random 1;
             Tpm.Random 0; Tpm.Random 0; Tpm.Random 0; Tpm.Random 0; Tpm.Random 0]))
  = [ "Diceware number 1: 31415"; " - pi"; nl;
      "Diceware number 2: 22222";
      " - (word not found in dictionary for number 22222)"; nl;
      "Diceware number 3: 11111"; " - one"; nl;
      nl +:+ "Complete passphrase: pi-one" +:+ nl ].
Proof.
  refine (proj1 (proj1 (proj2 (passphrase_line_printed
            {| rolls := 3; dictFile := "words.txt"; showPassphrase := true;
               separator := "-" |}
            {| prog := "dwp"; flag_defaults := "";
               files := fun _ =>
                 inr {| content := "31415" +:+ String tab ("pi" +:+ nl +:+ "66666"
                                   +:+ String tab ("six" +:+ nl +:+ "11111"
                                   +:+ String tab ("one" +:+ nl)));
                        read_err := None |} |}
            (Some (<[11111 := "one"]> (<[66666 := "six"]> (<[31415 := "pi"]> ∅))))
            [31415; 22222; 11111] _ _ _)) _ [] _)).
  - cbn. lia.
  - vm_compute. reflexivity.
  - reflexivity.
  - eapply generates_cons; [vm_compute; reflexivity|].
    eapply generates_cons; [vm_compute; reflexivity|].
    eapply generates_cons; [vm_compute; reflexivity|].
    apply generates_nil.
Defined.

(** The claim C8 as it was stated, for every run, fails on a run that a
    failed read ends: [-p] is set and the first number generated, 11111,
    is in the dictionary and printed with its word, yet the run exits
    with status 1 and no passphrase line is printed. *)
Lemma passphrase_line_missing_after_read_failure :
  generateDicewareNumber Tpm.secureRandInt 5
    [Tpm.Random 0; Tpm.Random 6; Tpm.Random 12; Tpm.Random 18; Tpm.Random 24;
     Tpm.Random 255; Tpm.GetRandomErr "tpm: transmit failed"] =
  Returns ((11111, None),
           [Tpm.Random 255; Tpm.GetRandomErr "tpm: transmit failed"]) /\
  Tpm.main
    {| rolls := 2; dictFile := "words.txt"; showPassphrase := true;
       separator := " " |}
    {| prog := "dwp"; flag_defaults := "";
       files := fun _ =>
         inr {| content := "11111" +:+ String tab ("apple" +:+ nl);
                read_err := None |} |}
    (inr [Tpm.Random 0; Tpm.Random 6; Tpm.Random 12; Tpm.Random 18; Tpm.Random 24;
          Tpm.Random 255; Tpm.GetRandomErr "tpm: transmit failed"])
  = {| stdout := ["Diceware number 1: 11111"; " - apple"; nl];
       stderr := ["Error generating Diceware number: " +:+
                  "failed to generate random number: tpm: transmit failed" +:+ nl];
       exit_status := Exit 1 |} /\
  ~ (exists line,
        is_passphrase_line line /\
        line ∈ ["Diceware number 1: 11111"; " - apple"; nl]).
Proof.
  split; [vm_compute; reflexivity|]. split; [vm_compute; reflexivity|].
  intros (line & (sep & ws & ->) & Hin).
  rewrite !elem_of_cons, elem_of_nil in Hin.
  destruct Hin as [H|[H|[H|[]]]];
    cbv [passphrase_line nl String.append] in H; discriminate H.
Qed.

(** ** Keys with text after the number *)

Lemma scan_signed_prefix sgn digits rest v :
  (sgn = "" \/ sgn = "+" \/ sgn = "-") ->
  digits <> "" -> parseDigits 0 digits = Some v ->
  - 2 ^ 63 <= (if String.eqb sgn "-" then - v else v) < 2 ^ 63 ->
  number_stop rest ->
  sscanf_d (sgn +:+ digits +:+ rest) =
    Some (if String.eqb sgn "-" then - v else v) /\
  has_tab (sgn +:+ digits) = false.
Proof.
  intros Hsgn Hne Hv Hrange Hstop.
  destruct (scan_signed_digits digits rest v Hne Hv Hstop) as (H0 & Hplus & Hminus).
  destruct (parseDigits_take digits 0 v rest Hv Hstop) as [_ Htab].
  destruct Hsgn as [-> | [-> | ->]]; cbn [String.eqb Ascii.eqb Bool.eqb] in Hrange |- *.
  - rewrite append_empty_l, H0. split; [|rewrite append_empty_l; exact Htab].
    destruct (Z.ltb_spec v (2 ^ 63)); [reflexivity|lia].
  - rewrite append_cons, append_empty_l.
    rewrite <- (append_cons "+"%char digits rest), Hplus.
    split; [|rewrite append_cons, append_empty_l; cbn [has_tab]; exact Htab].
    destruct (Z.ltb_spec v (2 ^ 63)); [reflexivity|lia].
  - rewrite append_cons, append_empty_l.
    rewrite <- (append_cons "-"%char digits rest), Hminus.
    split; [|rewrite append_cons, append_empty_l; cbn [has_tab]; exact Htab].
    destruct (Z.leb_spec v (2 ^ 63)); [reflexivity|lia].
Qed.

(** C10, as amended. A line whose first field starts with a decimal
    integer that fits Go's [int] (64 bits), with or without a sign,
    followed by text that does not begin with a digit, as in [123abc], is
    not skipped by [loadDictionary] in a load that the scanner does not
    end with an error: the scan of the field yields the integer, and the
    mapping returned has that key, with the second field of the line as
    its word unless a later line has the same key. *)
Theorem loadDictionary_integer_prefix
    fs filename f pre post sgn digits rest word tail v :
  fs filename = inr f ->
  scanner_err (raw_lines (content f)) (read_err f) = None ->
  (sgn = "" \/ sgn = "+" \/ sgn = "-") ->
  digits <> "" -> parseDigits 0 digits = Some v ->
  let key := if String.eqb sgn "-" then - v else v in
  - 2 ^ 63 <= key < 2 ^ 63 ->
  number_stop rest -> has_tab rest = false -> has_tab word = false ->
  (tail = "" \/ exists t, tail = String tab t) ->
  let line := (sgn +:+ digits +:+ rest) +:+ String tab (word +:+ tail) in
  lines_of (content f) = pre ++ line :: post ->
  sscanf_d (sgn +:+ digits +:+ rest) = Some key /\
  ~ malformed line /\
  entry_of line = Some (key, word) /\
  exists d,
    loadDictionary fs filename = (Some d, None) /\
    is_Some (d !! key) /\
    ((forall l' kw, l' ∈ post -> entry_of l' = Some kw -> kw.1 <> key) ->
     d !! key = Some word).
Proof.
  intros Hf Herr Hsgn Hne Hv key Hrange Hstop Hrest Hword Htail line Hlines.
  destruct (scan_signed_prefix sgn digits rest v Hsgn Hne Hv Hrange Hstop)
    as [Hscan Htab].
  fold key in Hscan.
  assert (Hfield : has_tab (sgn +:+ digits +:+ rest) = false).
  { rewrite <- append_assoc, has_tab_app, Htab, Hrest. reflexivity. }
  assert (Hentry : entry_of line = Some (key, word)).
  { unfold entry_of, line.
    destruct (split_tab_two_fields _ word tail Hfield Hword Htail) as [ps ->].
    rewrite Hscan. reflexivity. }
  split; [exact Hscan|]. split; [|split; [exact Hentry|]].
  { intros Hbad. apply malformed_entry in Hbad. congruence. }
  pose proof (loadDictionary_opened fs filename f Hf) as Hload.
  rewrite Herr, Hlines in Hload.
  eexists. split; [exact Hload|].
  rewrite omap_app. cbn [omap list_omap]. rewrite Hentry. split.
  - rewrite fold_left_app. cbn [fold_left].
    apply fold_insert_entry_is_Some. unfold insert_entry. cbn [fst snd].
    rewrite lookup_insert_eq. eauto.
  - intros Hlast. apply fold_insert_entry_last.
    intros kw Hin. apply list_elem_of_omap in Hin as (l' & Hl' & Hkw).
    exact (Hlast l' kw Hl' Hkw).
Qed.

Lemma loadDictionary_integer_prefix_witness :
  exists d,
    loadDictionary
      (fun _ => inr {| content := "11111" +:+ String tab ("apple" +:+ nl
                                  +:+ "123abc" +:+ String tab ("word" +:+ nl));
                       read_err := None |}) "words.txt" = (Some d, None) /\
    d !! 123 = Some "word".
Proof.
  destruct (loadDictionary_integer_prefix
              (fun _ => inr {| content := "11111" +:+ String tab ("apple" +:+ nl
                                          +:+ "123abc" +:+ String tab ("word" +:+ nl));
                               read_err := None |}) "words.txt" _
              ["11111" +:+ String tab "apple"] [] "" "123" "abc" "word" "" 123
              eq_refl eq_refl ltac:(left; reflexivity) ltac:(discriminate) eq_refl
              ltac:(cbn; lia) eq_refl eq_refl eq_refl ltac:(left; reflexivity)
              eq_refl)
    as (_ & _ & _ & d & Hload & _ & Hlast).
  exists d. split; [exact Hload|]. apply Hlast.
  intros l' kw Hl'. inversion Hl'.
Defined.

(** The claim C10 as it was stated, for every decimal integer, fails on
    a prefix beyond 64 bits: the digits are a decimal integer, the
    conversion reports a range error, and the line is skipped. *)
Lemma loadDictionary_prefix_beyond_int_skipped :
  parseDigits 0 "9223372036854775808" = Some 9223372036854775808 /\
  sscanf_d ("9223372036854775808" +:+ "abc") = None /\
  loadDictionary
    (fun _ => inr {| content := "9223372036854775808abc" +:+
                                String tab ("word" +:+ nl);
                     read_err := None |}) "words.txt" = (Some ∅, None).
Proof. split; [|split]; vm_compute; reflexivity. Qed.
